(** * SpotLight.js : the SpotLight component and the CameraControl facade

    A shallow embedding of [src/scene/lighting/SpotLight.js].  The file holds
    two classes: [SpotLight] (a light with an optional shadow) and
    [CameraControl] (the configuration facade of the camera navigation
    controller).  JavaScript values are embedded as a tagged union, numbers
    as IEEE-754 binary64 floats, the object literals [_configs], [_states]
    and [_updates] as finite maps from property names to values, and the
    instance that the setters mutate as a record threaded through them. *)

From stdpp Require Import base option list strings gmap.
From Stdlib Require Import PrimFloat QArith Qabs Qround Lqa.

#[local] Close Scope Q_scope.
#[local] Set Warnings "-inexact-float".

(** ** JavaScript values *)

Module Js.

(** The values a property setter can receive.  [Obj] stands for any object
    reference (arrays, DOM elements, ...), identified by its address. *)
Inductive value : Type :=
| VUndefined
| VNull
| VBool (b : bool)
| VNum (x : float)
| VStr (s : string)
| VObj (ref : nat).

(** [ToBoolean]: [undefined], [null], [false], [+0], [-0], [NaN] and the
    empty string are falsy, everything else is truthy. *)
Definition truthy (v : value) : bool :=
  match v with
  | VUndefined | VNull => false
  | VBool b => b
  | VNum x => negb (PrimFloat.is_nan x || PrimFloat.eqb x 0%float)
  | VStr s => negb (String.eqb s EmptyString)
  | VObj _ => true
  end.

(** [!!v] *)
Definition to_boolean (v : value) : value := VBool (truthy v).

(** [a === b].  Numbers compare as IEEE floats ([NaN !== NaN],
    [+0 === -0]); objects compare by reference. *)
Definition strict_eq (a b : value) : bool :=
  match a, b with
  | VUndefined, VUndefined => true
  | VNull, VNull => true
  | VBool x, VBool y => Bool.eqb x y
  | VNum x, VNum y => PrimFloat.eqb x y
  | VStr x, VStr y => String.eqb x y
  | VObj x, VObj y => Nat.eqb x y
  | _, _ => false
  end.

(** [a !== b] *)
Definition strict_neq (a b : value) : bool := negb (strict_eq a b).

(** [a || b] *)
Definition or (a b : value) : value := if truthy a then a else b.

(** The value is one of the two primitive booleans. *)
Definition is_boolean (v : value) : bool :=
  match v with VBool _ => true | _ => false end.

End Js.

(** ** SpotLight *)

Module SpotLight.
Import Js.

(** [glRedraw] and [fire] are inherited from [Component], which is not part
    of this file: a call is recorded in the order it is made. *)
Inductive effect : Type :=
| GlRedraw
| Fire (event : string) (arg : value).

(** The [RenderState] built by [init]. *)
Record RenderState : Type := mkRenderState {
  pos : list float;
  dir : list float;
  color : list float;
  intensity : value;
  attenuation : list value;
  space : value;
  castShadow : value;
  shadowDirty : bool
}.

(** The fields of a [SpotLight] instance that its setters touch, and the
    trace of calls into [Component]. *)
Record t : Type := mkSpotLight {
  _state : RenderState;
  _shadowViewMatrixDirty : bool;
  _shadowProjMatrixDirty : bool;
  trace : list effect
}.

Definition with_castShadow (v : value) (s : RenderState) : RenderState :=
  mkRenderState (pos s) (dir s) (color s) (intensity s) (attenuation s)
                (space s) v (shadowDirty s).

Definition with_intensity (v : value) (s : RenderState) : RenderState :=
  mkRenderState (pos s) (dir s) (color s) v (attenuation s)
                (space s) (castShadow s) (shadowDirty s).

Definition glRedraw (l : t) : t :=
  mkSpotLight (_state l) (_shadowViewMatrixDirty l) (_shadowProjMatrixDirty l)
              (trace l ++ [GlRedraw]).

Definition fire (event : string) (arg : value) (l : t) : t :=
  mkSpotLight (_state l) (_shadowViewMatrixDirty l) (_shadowProjMatrixDirty l)
              (trace l ++ [Fire event arg]).

(** [set intensity(value)] *)
Definition set_intensity (v : value) (l : t) : t :=
  let v := if strict_neq v VUndefined then v else VNum 1%float in
  glRedraw (mkSpotLight (with_intensity v (_state l))
                        (_shadowViewMatrixDirty l) (_shadowProjMatrixDirty l)
                        (trace l)).

(** [set castShadow(value)] *)
Definition set_castShadow (v : value) (l : t) : t :=
  let v := to_boolean v in
  if strict_eq (castShadow (_state l)) v then l
  else
    let l1 := mkSpotLight (with_castShadow v (_state l))
                          true (_shadowProjMatrixDirty l) (trace l) in
    fire "dirty" (VBool true) (glRedraw l1).

(** [get castShadow()] *)
Definition get_castShadow (l : t) : value := castShadow (_state l).

(** The state [init] leaves behind before it applies [cfg]. *)
Definition init_state (cfg_space : value) : t :=
  mkSpotLight
    (mkRenderState [1%float; 1%float; 1%float]
                   [0%float; (-1)%float; 0%float]
                   [0.7%float; 0.7%float; 0.8%float]
                   (VNum 1%float)
                   [VNum 0%float; VNum 0%float; VNum 0%float]
                   (or cfg_space (VStr "view"))
                   (VBool false)
                   true)
    true true [].

End SpotLight.

(** ** CameraControl *)

Module CameraControl.
Import Js.

(** [o.k]: reading a property that the object does not have gives
    [undefined]. *)
Definition prop (o : gmap string value) (k : string) : value :=
  default VUndefined (o !! k).

(** *** The pivot controller *)

Inductive PivotState : Type := Inactive | Shown | Dragging.

(** Modelled from the spec: [PivotController] lives in
    [lib/controllers/PivotController.js], which is not part of the sources.
    It owns the pivot state machine, the world-space pivot position and the
    optional indicator element: [hidePivot] hides the indicator and
    [endPivot] takes the machine to [Inactive] from every state. *)
Record PivotController : Type := mkPivotController {
  pivotState : PivotState;
  indicatorVisible : bool;
  pivotPos : value;
  pivotElement : value
}.

Definition hidePivot (p : PivotController) : PivotController :=
  mkPivotController (pivotState p) false (pivotPos p) (pivotElement p).

Definition endPivot (p : PivotController) : PivotController :=
  mkPivotController Inactive (indicatorVisible p) (pivotPos p) (pivotElement p).

Definition setPivotPos (worldPos : value) (p : PivotController) : PivotController :=
  mkPivotController (pivotState p) (indicatorVisible p) worldPos (pivotElement p).

Definition setPivotElement (element : value) (p : PivotController) : PivotController :=
  mkPivotController (pivotState p) (indicatorVisible p) (pivotPos p) element.

Definition getPivotPos (p : PivotController) : value := pivotPos p.

Section WithHandlers.

(** The private state a device handler keeps in its closure (buttons
    down, last pointer position, a drag in progress, ...). *)
Context {L : Type}.

(** What a handler's [reset] can write: its own closure and the two
    objects it shares with the facade for writing, [_states] and
    [_updates].  A handler is also constructed with [_configs] and the
    controllers; the sources of the handlers are not available, and a
    [reset] is taken here to depend on neither of the two. *)
Record HandlerCtx : Type := mkHandlerCtx {
  ctx_local : L;
  ctx_states : gmap string value;
  ctx_updates : gmap string value
}.

(** Modelled from the spec: the device handlers live in [lib/handlers],
    which is not part of the sources.  A handler is duck-typed: it may or
    may not have a [reset] method. *)
Record Handler : Type := mkHandler {
  h_local : L;
  h_reset : option (HandlerCtx → HandlerCtx)
}.

(** A [CameraControl] instance.  [errors] collects the messages passed to
    [Component.error]. *)
Record t : Type := mkCameraControl {
  _configs : gmap string value;
  _states : gmap string value;
  _updates : gmap string value;
  pivotController : PivotController;
  _handlers : list Handler;
  errors : list string
}.

(** [this._configs.k = v] *)
Definition store_config (k : string) (v : value) (c : t) : t :=
  mkCameraControl (<[k := v]> (_configs c)) (_states c) (_updates c)
                  (pivotController c) (_handlers c) (errors c).

(** [this._updates.k = v] *)
Definition store_update (k : string) (v : value) (c : t) : t :=
  mkCameraControl (_configs c) (_states c) (<[k := v]> (_updates c))
                  (pivotController c) (_handlers c) (errors c).

Definition with_pivotController (p : PivotController) (c : t) : t :=
  mkCameraControl (_configs c) (_states c) (_updates c)
                  p (_handlers c) (errors c).

(** [this.error(msg)] *)
Definition error (msg : string) (c : t) : t :=
  mkCameraControl (_configs c) (_states c) (_updates c)
                  (pivotController c) (_handlers c) (errors c ++ [msg]).

(** One turn of the loop of [_reset]: [if (handler.reset) handler.reset()]. *)
Definition reset_handler (h : Handler) (states updates : gmap string value)
  : Handler * gmap string value * gmap string value :=
  match h_reset h with
  | Some f =>
      let r := f (mkHandlerCtx (h_local h) states updates) in
      (mkHandler (ctx_local r) (h_reset h), ctx_states r, ctx_updates r)
  | None => (h, states, updates)
  end.

(** The loop of [_reset], over the handlers in registration order. *)
Fixpoint reset_handlers (hs : list Handler) (states updates : gmap string value)
  : list Handler * gmap string value * gmap string value :=
  match hs with
  | [] => ([], states, updates)
  | h :: hs' =>
      let '(h1, states1, updates1) := reset_handler h states updates in
      let '(hs1, states2, updates2) := reset_handlers hs' states1 updates1 in
      (h1 :: hs1, states2, updates2)
  end.

(** [_reset()] *)
Definition _reset (c : t) : t :=
  let '(hs, states, updates) :=
    reset_handlers (_handlers c) (_states c) (_updates c) in
  let c := mkCameraControl (_configs c) states updates
                           (pivotController c) hs (errors c) in
  let c := store_update "panDeltaX" (VNum 0%float) c in
  let c := store_update "panDeltaY" (VNum 0%float) c in
  let c := store_update "rotateDeltaX" (VNum 0%float) c in
  let c := store_update "rotateDeltaY" (VNum 0%float) c in
  store_update "dolyDelta" (VNum 0%float) c.

(** [set pivotElement(element)] *)
Definition set_pivotElement (element : value) (c : t) : t :=
  with_pivotController (setPivotElement element (pivotController c)) c.

(** [set active(value)] *)
Definition set_active (v : value) (c : t) : t :=
  let c := _reset c in
  store_config "active" (VBool (strict_neq v (VBool false))) c.

(** [set pointerEnabled(value)] *)
Definition set_pointerEnabled (v : value) (c : t) : t :=
  let c := _reset c in
  store_config "pointerEnabled" (to_boolean v) c.

(** [set pivoting(value)] *)
Definition set_pivoting (v : value) (c : t) : t :=
  store_config "pivoting" (to_boolean v) c.

(** [set pivotPos(worldPos)] *)
Definition set_pivotPos (worldPos : value) (c : t) : t :=
  with_pivotController (setPivotPos worldPos (pivotController c)) c.

(** [set dollyToPointer(value)] *)
Definition set_dollyToPointer (v : value) (c : t) : t :=
  let c := store_config "dollyToPointer" (to_boolean v) c in
  if truthy (prop (_configs c) "dollyToPointer")
  then store_config "dollyToPivot" (VBool false) c
  else c.

(** [set dollyToPivot(value)] *)
Definition set_dollyToPivot (v : value) (c : t) : t :=
  let c := store_config "dollyToPivot" (to_boolean v) c in
  if truthy (prop (_configs c) "dollyToPivot")
  then store_config "dollyToPointer" (VBool false) c
  else c.

(** [set planView(value)] *)
Definition set_planView (v : value) (c : t) : t :=
  store_config "planView" (to_boolean v) c.

(** [set firstPerson(value)] *)
Definition set_firstPerson (v : value) (c : t) : t :=
  let c := store_config "firstPerson" (to_boolean v) c in
  if truthy (prop (_configs c) "firstPerson")
  then
    let c := with_pivotController (hidePivot (pivotController c)) c in
    with_pivotController (endPivot (pivotController c)) c
  else c.

(** [set constrainVertical(value)] *)
Definition set_constrainVertical (v : value) (c : t) : t :=
  store_config "constrainVertical" (to_boolean v) c.

(** [set doublePickFlyTo(value)] *)
Definition set_doublePickFlyTo (v : value) (c : t) : t :=
  store_config "doublePickFlyTo" (VBool (strict_neq v (VBool false))) c.

(** [set panRightClick(value)] *)
Definition set_panRightClick (v : value) (c : t) : t :=
  store_config "panRightClick" (VBool (strict_neq v (VBool false))) c.

(** [set rotationInertia(value)] *)
Definition set_rotationInertia (v : value) (c : t) : t :=
  store_config "rotationInertia"
               (if strict_eq v VUndefined then VNum 0.5%float else v) c.

(** [set dollyRate(dollyRate)] *)
Definition set_dollyRate (dollyRate : value) (c : t) : t :=
  store_config "dollyRate" (or dollyRate (VNum 10.0%float)) c.

(** [set dollyInertia(value)] *)
Definition set_dollyInertia (v : value) (c : t) : t :=
  store_config "dollyInertia"
               (if strict_eq v VUndefined then VNum 0.5%float else v) c.

(** [set keyboardLayout(value)] *)
Definition set_keyboardLayout (v : value) (c : t) : t :=
  let v := or v (VStr "qwerty") in
  if strict_neq v (VStr "qwerty") && strict_neq v (VStr "azerty")
  then
    let c := error "Unsupported value for keyboardLayout - defaulting to 'qwerty'" c in
    store_config "keyboardLayout" (VStr "qwerty") c
  else store_config "keyboardLayout" v c.

(** The getters: [get active()] is [this._configs.active], and so on for
    every option. *)
Definition get_config (k : string) (c : t) : value := prop (_configs c) k.

(** [get pivotPos()] *)
Definition get_pivotPos (c : t) : value := getPivotPos (pivotController c).

(** *** The constructor *)

(** [this._configs = {...}] *)
Definition initial_configs : gmap string value :=
  list_to_map
    [ ("active", VBool true);
      ("tapInterval", VNum 150%float);
      ("doubleTapInterval", VNum 325%float);
      ("tapDistanceThreshold", VNum 4%float);
      ("mousePanRate", VNum 0.1%float);
      ("keyboardPanRate", VNum 0.02%float);
      ("keyboardOrbitRate", VNum 0.02%float);
      ("touchRotateRate", VNum 0.3%float);
      ("touchPanRate", VNum 0.2%float);
      ("touchZoomRate", VNum 0.2%float);
      ("dollyRate", VNum 10%float);
      ("planView", VBool false);
      ("firstPerson", VBool false);
      ("constrainVertical", VBool false);
      ("doublePickFlyTo", VBool true);
      ("panRightClick", VBool true);
      ("pivoting", VBool false);
      ("dollyToPointer", VBool false);
      ("dollyToPivot", VBool false);
      ("rotationInertia", VNum 0%float);
      ("dollyInertia", VNum 0%float);
      ("pointerEnabled", VBool true);
      ("keyboardLayout", VStr "qwerty") ].

(** [this._states = {...}]; the three arrays are fresh objects. *)
Definition initial_states : gmap string value :=
  list_to_map
    [ ("mouseCanvasPos", VObj 0);
      ("mouseover", VBool false);
      ("inputFromMouse", VBool false);
      ("mouseDownClientX", VNum 0%float);
      ("mouseDownClientY", VNum 0%float);
      ("mouseDownCursorX", VNum 0%float);
      ("mouseDownCursorY", VNum 0%float);
      ("touchStartTime", VNull);
      ("activeTouches", VObj 1);
      ("tapStartPos", VObj 2);
      ("tapStartTime", VNum (-1)%float);
      ("lastTapTime", VNum (-1)%float) ].

(** [this._updates = {...}] *)
Definition initial_updates : gmap string value :=
  list_to_map
    [ ("rotateDeltaX", VNum 0%float);
      ("rotateDeltaY", VNum 0%float);
      ("panDeltaX", VNum 0%float);
      ("panDeltaY", VNum 0%float);
      ("panDeltaZ", VNum 0%float);
      ("dollyDelta", VNum 0%float) ].

(** The instance as the constructor has it once the object literals and the
    collaborators are in place, before it applies [cfg]. *)
Definition literals (pivot : PivotController) (handlers : list Handler) : t :=
  mkCameraControl initial_configs initial_states initial_updates
                  pivot handlers [].

(** [constructor(owner, cfg = {})].  The pivot controller and the seven
    handlers are built by constructors that are not part of the sources:
    they are taken as they come. *)
Definition construct (pivot : PivotController) (handlers : list Handler)
           (cfg : gmap string value) : t :=
  let c := literals pivot handlers in
  let c := set_planView (prop cfg "planView") c in
  let c := set_firstPerson (prop cfg "firstPerson") c in
  let c := set_constrainVertical (prop cfg "constrainVertical") c in
  let c := set_keyboardLayout (prop cfg "keyboardLayout") c in
  let c := set_doublePickFlyTo (prop cfg "doublePickFlyTo") c in
  let c := set_panRightClick (prop cfg "panRightClick") c in
  let c := set_active (prop cfg "active") c in
  let c := set_pivoting (prop cfg "pivoting") c in
  let c := set_dollyToPointer (prop cfg "dollyToPointer") c in
  let c := set_dollyToPivot (prop cfg "dollyToPivot") c in
  let c := set_rotationInertia (prop cfg "rotationInertia") c in
  let c := set_dollyInertia (prop cfg "dollyInertia") c in
  let c := set_pointerEnabled (VBool true) c in
  set_dollyRate (prop cfg "dollyRate") c.

(** *** Sequences of writes *)

(** A write to one of the settable properties of the facade. *)
Inductive write : Type :=
| PivotElement (v : value)
| Active (v : value)
| PointerEnabled (v : value)
| Pivoting (v : value)
| PivotPos (v : value)
| DollyToPointer (v : value)
| DollyToPivot (v : value)
| PlanView (v : value)
| FirstPerson (v : value)
| ConstrainVertical (v : value)
| DoublePickFlyTo (v : value)
| PanRightClick (v : value)
| RotationInertia (v : value)
| DollyRate (v : value)
| DollyInertia (v : value)
| KeyboardLayout (v : value).

Definition perform (c : t) (w : write) : t :=
  match w with
  | PivotElement v => set_pivotElement v c
  | Active v => set_active v c
  | PointerEnabled v => set_pointerEnabled v c
  | Pivoting v => set_pivoting v c
  | PivotPos v => set_pivotPos v c
  | DollyToPointer v => set_dollyToPointer v c
  | DollyToPivot v => set_dollyToPivot v c
  | PlanView v => set_planView v c
  | FirstPerson v => set_firstPerson v c
  | ConstrainVertical v => set_constrainVertical v c
  | DoublePickFlyTo v => set_doublePickFlyTo v c
  | PanRightClick v => set_panRightClick v c
  | RotationInertia v => set_rotationInertia v c
  | DollyRate v => set_dollyRate v c
  | DollyInertia v => set_dollyInertia v c
  | KeyboardLayout v => set_keyboardLayout v c
  end.

(** The writes of a program, in the order they are made. *)
Definition perform_all (c : t) (ws : list write) : t := foldl perform c ws.

(** The property names a write can store under in [_configs]. *)
Definition written (w : write) : list string :=
  match w with
  | PivotElement _ | PivotPos _ => []
  | Active _ => ["active"]
  | PointerEnabled _ => ["pointerEnabled"]
  | Pivoting _ => ["pivoting"]
  | DollyToPointer _ | DollyToPivot _ => ["dollyToPointer"; "dollyToPivot"]
  | PlanView _ => ["planView"]
  | FirstPerson _ => ["firstPerson"]
  | ConstrainVertical _ => ["constrainVertical"]
  | DoublePickFlyTo _ => ["doublePickFlyTo"]
  | PanRightClick _ => ["panRightClick"]
  | RotationInertia _ => ["rotationInertia"]
  | DollyRate _ => ["dollyRate"]
  | DollyInertia _ => ["dollyInertia"]
  | KeyboardLayout _ => ["keyboardLayout"]
  end.

(** *** The pivot state machine under input *)

(** Modelled from the spec: the handlers that drive the pivot state machine
    are not part of the sources.  These are the four transitions the design
    lists: a pick that hits an entity shows the pivot when [pivoting] is on
    and [firstPerson] is off, a drag while pivoting starts dragging, a
    release ends the drag, and an explicit [endPivot()].  Everything else
    leaves the machine where it is. *)
Inductive pivot_event : Type :=
| PickHit (worldPos : value)
| Drag
| Release
| EndPivot.

Definition pivot_step (c : t) (e : pivot_event) : t :=
  let p := pivotController c in
  match e, pivotState p with
  | PickHit worldPos, Inactive =>
      if truthy (get_config "pivoting" c) && negb (truthy (get_config "firstPerson" c))
      then with_pivotController
             (mkPivotController Shown true worldPos (pivotElement p)) c
      else c
  | Drag, Shown =>
      if truthy (get_config "pivoting" c)
      then with_pivotController
             (mkPivotController Dragging (indicatorVisible p) (pivotPos p) (pivotElement p)) c
      else c
  | Release, Dragging =>
      with_pivotController
        (mkPivotController Shown (indicatorVisible p) (pivotPos p) (pivotElement p)) c
  | EndPivot, _ => with_pivotController (endPivot p) c
  | _, _ => c
  end.

(** What can happen to an instance between two render ticks: the
    application writes a property, or a handler drives the pivot. *)
Inductive action : Type :=
| Write (w : write)
| Input (e : pivot_event).

Definition step (c : t) (a : action) : t :=
  match a with
  | Write w => perform c w
  | Input e => pivot_step c e
  end.

Definition run (c : t) (acts : list action) : t := foldl step c acts.

(** *** What the properties are stated about *)

(** Both dolly targets are on. *)
Definition both_dolly_targets (c : t) : bool :=
  truthy (get_config "dollyToPointer" c) && truthy (get_config "dollyToPivot" c).

(** The options the constructor initialises with [true] or [false]. *)
Definition boolean_options : list string :=
  [ "active"; "planView"; "firstPerson"; "constrainVertical";
    "doublePickFlyTo"; "panRightClick"; "pivoting"; "dollyToPointer";
    "dollyToPivot"; "pointerEnabled" ].

(** Each of them holds one of the two primitive booleans. *)
Definition booleans_are_boolean (c : t) : Prop :=
  ∀ k, k ∈ boolean_options → is_boolean (get_config k c) = true.

(** In first-person mode the pivot is inactive and its indicator hidden. *)
Definition first_person_without_pivot (c : t) : Prop :=
  get_config "firstPerson" c = VBool true →
  pivotState (pivotController c) = Inactive
  ∧ indicatorVisible (pivotController c) = false.

(** [c'] is [c] outside the options [ks]: every other option, [_states],
    [_updates], the pivot controller, the handlers and the log are the
    same. *)
Definition same_outside (ks : list string) (c c' : t) : Prop :=
  (∀ k, k ∉ ks → _configs c' !! k = _configs c !! k)
  ∧ _states c' = _states c
  ∧ _updates c' = _updates c
  ∧ pivotController c' = pivotController c
  ∧ _handlers c' = _handlers c
  ∧ errors c' = errors c.

(** The handler's [reset], if it has one, does not write to [_updates]. *)
Definition leaves_updates (h : Handler) : Prop :=
  match h_reset h with
  | Some f => ∀ ctx, ctx_updates (f ctx) = ctx_updates ctx
  | None => True
  end.

End WithHandlers.

Arguments HandlerCtx : clear implicits.
Arguments Handler : clear implicits.
Arguments t : clear implicits.

End CameraControl.

(** ** Tap recognition *)

Module TapRecognition.
Import Js.

(** A pointer press or release: where on the canvas, and when
    (milliseconds). *)
Record pointer_event : Type := mkPointerEvent {
  canvasX : float;
  canvasY : float;
  timeStamp : float
}.

(** Pixels between the press and the release. *)
Definition displacement (down up : pointer_event) : float :=
  let dx := (canvasX up - canvasX down)%float in
  let dy := (canvasY up - canvasY down)%float in
  PrimFloat.sqrt (dx * dx + dy * dy)%float.

(** Milliseconds between the press and the release. *)
Definition duration (down up : pointer_event) : float :=
  (timeStamp up - timeStamp down)%float.

(** Modelled from the spec: the pick handlers ([MousePickHandler.js],
    [TouchPickHandler.js]) are not part of the sources.  On pointer-down the
    handler records position and time; on pointer-up the pair is a tap when
    the displacement is below [tapDistanceThreshold] and the duration is
    below [tapInterval].  Both options are numbers in every state of
    [CameraControl]: its constructor stores them and no setter writes them. *)
Definition is_tap (configs : gmap string value) (down up : pointer_event) : bool :=
  match CameraControl.prop configs "tapDistanceThreshold",
        CameraControl.prop configs "tapInterval" with
  | VNum threshold, VNum interval =>
      PrimFloat.ltb (displacement down up) threshold
      && PrimFloat.ltb (duration down up) interval
  | _, _ => false
  end.

End TapRecognition.

(** ** Inertia *)

Module CameraUpdater.
#[local] Open Scope Q_scope.

(** [f]^[n] *)
Fixpoint power (f : Q) (n : nat) : Q :=
  match n with
  | O => 1
  | S n' => f * power f n'
  end.

(** A residual whose magnitude is below [epsilon] is zeroed. *)
Definition cutoff (epsilon x : Q) : Q :=
  if Qlt_le_dec (Qabs x) epsilon then 0 else x.

(** Modelled from the spec: [CameraUpdater.js] is not part of the sources.
    One render tick for one pending delta, over exact rationals: with an
    inertia factor above zero the residual of the previous tick is scaled by
    it, otherwise it is discarded; the new input is added; the sum is what
    the camera moves by, and, zeroed when its magnitude is below [epsilon],
    the residual of the next tick.  The result is (applied, residual). *)
Definition tick (inertia epsilon residual input : Q) : Q * Q :=
  let carried := if Qlt_le_dec 0 inertia then residual * inertia else 0 in
  let combined := carried + input in
  (combined, cutoff epsilon combined).

(** The residual after [n] ticks without new input. *)
Fixpoint coast (inertia epsilon delta : Q) (n : nat) : Q :=
  match n with
  | O => delta
  | S n' => snd (tick inertia epsilon (coast inertia epsilon delta n') 0)
  end.

(** A number of ticks after which a residual that started at [delta] is
    zeroed. *)
Definition settle_bound (inertia epsilon delta : Q) : nat :=
  Z.to_nat (Qfloor (Qabs delta / (epsilon * (1 - inertia))) + 1).

End CameraUpdater.

(** ** Concrete instances *)

Module Scenario.
Import Js SpotLight CameraControl.

(** A light that casts a shadow, with a clean view matrix and one redraw
    behind it. *)
Definition lit : SpotLight.t :=
  mkSpotLight (with_castShadow (VBool true) (_state (init_state VUndefined)))
              false true [GlRedraw].

(** A handler that remembers whether a drag is in progress and whose
    [reset] forgets it. *)
Definition drag_handler (dragging : bool) : Handler bool :=
  mkHandler dragging
            (Some (λ ctx, mkHandlerCtx false (ctx_states ctx) (ctx_updates ctx))).

(** A handler without a [reset] method. *)
Definition plain_handler : Handler bool := mkHandler false None.

(** Seven handlers, as the constructor registers them; two of them are in
    the middle of a drag. *)
Definition handlers : list (Handler bool) :=
  [ plain_handler; drag_handler true; drag_handler true; plain_handler;
    plain_handler; plain_handler; plain_handler ].

Definition no_pivot : PivotController :=
  mkPivotController Inactive false VUndefined VUndefined.

(** [new CameraControl(owner)] with an empty configuration. *)
Definition fresh : CameraControl.t bool := construct no_pivot handlers ∅.

(** The same instance in the middle of a gesture: the wheel has been turned,
    a key pans along the view axis and the pointer is being dragged, so
    three deltas are pending. *)
Definition mid_gesture : CameraControl.t bool :=
  mkCameraControl
    (_configs fresh) (_states fresh)
    (<["dollyDelta" := VNum 1%float]>
       (<["panDeltaZ" := VNum 2%float]>
          (<["rotateDeltaX" := VNum 3%float]> (_updates fresh))))
    (pivotController fresh) (_handlers fresh) (errors fresh).

(** An instance that dollies to the pivot and shows it while dragging. *)
Definition pivoting_drag : CameraControl.t bool :=
  with_pivotController
    (mkPivotController Dragging true (VObj 7) (VObj 8))
    (set_dollyToPivot (VBool true) (set_pivoting (VBool true) fresh)).

End Scenario.

(** ** CameraControl: summaries of the writes *)

Module CameraControlWrites.
Import Js CameraControl.

(** The property of the facade that a write assigns. *)
Definition property (w : write) : string :=
  match w with
  | PivotElement _ => "pivotElement"
  | Active _ => "active"
  | PointerEnabled _ => "pointerEnabled"
  | Pivoting _ => "pivoting"
  | PivotPos _ => "pivotPos"
  | DollyToPointer _ => "dollyToPointer"
  | DollyToPivot _ => "dollyToPivot"
  | PlanView _ => "planView"
  | FirstPerson _ => "firstPerson"
  | ConstrainVertical _ => "constrainVertical"
  | DoublePickFlyTo _ => "doublePickFlyTo"
  | PanRightClick _ => "panRightClick"
  | RotationInertia _ => "rotationInertia"
  | DollyRate _ => "dollyRate"
  | DollyInertia _ => "dollyInertia"
  | KeyboardLayout _ => "keyboardLayout"
  end.

(** The value is truthy and neither of the two layouts: what
    [set keyboardLayout] reports. *)
Definition unsupported_layout (v : value) : bool :=
  truthy v && strict_neq v (VStr "qwerty") && strict_neq v (VStr "azerty").

(** The write is one that [set keyboardLayout] reports. *)
Definition reported (w : write) : bool :=
  match w with
  | KeyboardLayout v => unsupported_layout v
  | _ => false
  end.

(** The write runs [_reset()]. *)
Definition resets (w : write) : bool :=
  match w with
  | Active _ | PointerEnabled _ => true
  | _ => false
  end.

(** The write calls into the pivot controller. *)
Definition reaches_pivot (w : write) : bool :=
  match w with
  | PivotElement _ | PivotPos _ | FirstPerson _ => true
  | _ => false
  end.

(** The options that have no setter: the tap thresholds and the rates. *)
Definition fixed_options : list string :=
  [ "tapInterval"; "doubleTapInterval"; "tapDistanceThreshold";
    "mousePanRate"; "keyboardPanRate"; "keyboardOrbitRate";
    "touchRotateRate"; "touchPanRate"; "touchZoomRate" ].

Section WithHandlers.
Context {L : Type}.

(** The handler's [reset], if it has one, writes nothing but the handler's
    own closure, and what it leaves there is what a further [reset] leaves
    there, whatever [_states] and [_updates] hold by then. *)
Definition resets_own_state (h : Handler L) : Prop :=
  match h_reset h with
  | Some f =>
      ∀ ctx,
        ctx_states (f ctx) = ctx_states ctx
        ∧ ctx_updates (f ctx) = ctx_updates ctx
        ∧ ∀ ctx', ctx_local ctx' = ctx_local (f ctx) →
                  ctx_local (f ctx') = ctx_local (f ctx)
  | None => True
  end.

End WithHandlers.

End CameraControlWrites.

(** ** SpotLight: vectors, attenuation, the shadow matrices and [init] *)

Module SpotLightShadow.
Import Js SpotLight.

(** What a vector property can be assigned: a falsy value, or an array-like
    object, given by the numbers its elements convert to. *)
Inductive vector : Type :=
| NoVector
| Elements (xs : list float).

(** [cfg], as [init] reads it.  [cfg.dir] is documented but never read. *)
Record config : Type := mkConfig {
  cfg_space : value;
  cfg_pos : vector;
  cfg_dir : vector;
  cfg_color : vector;
  cfg_intensity : value;
  cfg_constantAttenuation : value;
  cfg_linearAttenuation : value;
  cfg_quadraticAttenuation : value;
  cfg_castShadow : value
}.

(** [a[i] = v] on a JavaScript array: in range the element is replaced, out
    of range the array grows and the holes read as [undefined]. *)
Definition array_store (i : nat) (v : value) (a : list value) : list value :=
  if decide (i < length a)
  then <[i := v]> a
  else a ++ replicate (i - length a) VUndefined ++ [v].

Definition with_pos (p : list float) (s : RenderState) : RenderState :=
  mkRenderState p (dir s) (color s) (intensity s) (attenuation s)
                (space s) (castShadow s) (shadowDirty s).

Definition with_dir (d : list float) (s : RenderState) : RenderState :=
  mkRenderState (pos s) d (color s) (intensity s) (attenuation s)
                (space s) (castShadow s) (shadowDirty s).

Definition with_color (c : list float) (s : RenderState) : RenderState :=
  mkRenderState (pos s) (dir s) c (intensity s) (attenuation s)
                (space s) (castShadow s) (shadowDirty s).

Definition with_attenuation (a : list value) (s : RenderState) : RenderState :=
  mkRenderState (pos s) (dir s) (color s) (intensity s) a
                (space s) (castShadow s) (shadowDirty s).

(** [Math.PI] *)
Definition PI : float := 0x1.921fb54442d18p+1%float.

Section WithMath.

(** [math.js] is not part of the sources.  What is taken from it: how a
    number is stored in the array type of [math.vec3] (as it is in a
    Float64Array, rounded to single precision in a Float32Array), the
    identity matrix, and the three functions that write their result into
    their last argument and return it; each is given as the new content of
    that argument. *)
Variable to_element : float → float.
Variable identityMat4 : list float.
Variable addVec3 : list float → list float → list float → list float.
Variable lookAtMat4v : list float → list float → list float → list float → list float.
Variable perspectiveMat4 : float → float → float → float → list float → list float.

(** A [SpotLight] with the fields of the shadow getters: the two cached
    matrices ([null] until first asked for) and the vector [look] that the
    closure of [getShadowViewMatrix] keeps. *)
Record instance : Type := mkInstance {
  light : SpotLight.t;
  _shadowViewMatrix : option (list float);
  _shadowProjMatrix : option (list float);
  look : list float
}.

Definition on_light (f : SpotLight.t → SpotLight.t) (i : instance) : instance :=
  mkInstance (f (light i)) (_shadowViewMatrix i) (_shadowProjMatrix i) (look i).

(** [target.set(source)] on a typed array: a [RangeError] ([None]) when the
    source is longer than the target, before anything is written; otherwise
    the elements of the source replace the first elements of the target. *)
Definition typed_array_set (target source : list float) : option (list float) :=
  if decide (length source ≤ length target)
  then Some ((to_element <$> source) ++ drop (length source) target)
  else None.

(** [value || [x, y, z]] *)
Definition or_vector (value : vector) (x y z : float) : list float :=
  match value with
  | NoVector => [x; y; z]
  | Elements xs => xs
  end.

(** [set pos(value)] *)
Definition set_pos (value : vector) (i : instance) : option instance :=
  p ← typed_array_set (pos (_state (light i))) (or_vector value 1 1 1);
  Some (on_light
          (λ l, glRedraw (mkSpotLight (with_pos p (_state l)) true
                                      (_shadowProjMatrixDirty l) (trace l)))
          i).

(** [get pos()] *)
Definition get_pos (i : instance) : list float := pos (_state (light i)).

(** [set dir(value)] *)
Definition set_dir (value : vector) (i : instance) : option instance :=
  d ← typed_array_set (dir (_state (light i))) (or_vector value 1 1 1);
  Some (on_light
          (λ l, glRedraw (mkSpotLight (with_dir d (_state l)) true
                                      (_shadowProjMatrixDirty l) (trace l)))
          i).

(** [get dir()] *)
Definition get_dir (i : instance) : list float := dir (_state (light i)).

(** [set color(value)] *)
Definition set_color (value : vector) (i : instance) : option instance :=
  c ← typed_array_set (color (_state (light i))) (or_vector value 0.7 0.7 0.8);
  Some (on_light
          (λ l, glRedraw (mkSpotLight (with_color c (_state l))
                                      (_shadowViewMatrixDirty l)
                                      (_shadowProjMatrixDirty l) (trace l)))
          i).

(** [get color()] *)
Definition get_color (i : instance) : list float := color (_state (light i)).

(** [get intensity()] *)
Definition get_intensity (i : instance) : value := intensity (_state (light i)).

(** The three attenuation setters: [this._state.attenuation[k] = value || 0.0]
    and a redraw, for [k] = 0 (constant), 1 (linear), 2 (quadratic). *)
Definition set_attenuation (k : nat) (v : value) (l : SpotLight.t) : SpotLight.t :=
  glRedraw
    (mkSpotLight
       (with_attenuation (array_store k (or v (VNum 0%float))
                                      (attenuation (_state l)))
                         (_state l))
       (_shadowViewMatrixDirty l) (_shadowProjMatrixDirty l) (trace l)).

Definition set_constantAttenuation : value → SpotLight.t → SpotLight.t :=
  set_attenuation 0.

Definition set_linearAttenuation : value → SpotLight.t → SpotLight.t :=
  set_attenuation 1.

Definition set_quadraticAttenuation : value → SpotLight.t → SpotLight.t :=
  set_attenuation 2.

(** The three attenuation getters: [this._state.attenuation[k]]. *)
Definition get_attenuation (k : nat) (l : SpotLight.t) : value :=
  default VUndefined (attenuation (_state l) !! k).

(** [up], the constant of the closure of [getShadowViewMatrix]. *)
Definition up : list float := to_element <$> [0%float; 1%float; 0%float].

(** [_state.getShadowViewMatrix()]: the matrix it returns, and the instance
    afterwards. *)
Definition getShadowViewMatrix (i : instance) : option (list float) * instance :=
  let l := light i in
  if _shadowViewMatrixDirty l then
    let dest := default identityMat4 (_shadowViewMatrix i) in
    let look' := addVec3 (pos (_state l)) (dir (_state l)) (look i) in
    let m := lookAtMat4v (pos (_state l)) look' up dest in
    (Some m,
     mkInstance (mkSpotLight (_state l) false (_shadowProjMatrixDirty l) (trace l))
                (Some m) (_shadowProjMatrix i) look')
  else (_shadowViewMatrix i, i).

(** [_state.getShadowProjMatrix()], for a canvas of the given client size. *)
Definition getShadowProjMatrix (clientWidth clientHeight : float) (i : instance)
  : option (list float) * instance :=
  let l := light i in
  if _shadowProjMatrixDirty l then
    let dest := default identityMat4 (_shadowProjMatrix i) in
    let m := perspectiveMat4 (60 * (PI / 180))%float
                             (clientWidth / clientHeight)%float
                             0.1%float 400%float dest in
    (Some m,
     mkInstance (mkSpotLight (_state l) (_shadowViewMatrixDirty l) false (trace l))
                (_shadowViewMatrix i) (Some m) (look i))
  else (_shadowProjMatrix i, i).

(** The fields as [init] assigns them before it applies [cfg]: no matrix
    yet, both marked dirty, and a fresh (zero-filled) [look]. *)
Definition created (space : value) : instance :=
  mkInstance (init_state space) None None [0%float; 0%float; 0%float].

(** [init(cfg)], as far as the fields above go: [None] when one of the
    setters throws.  ([super.init] and [scene._lightCreated] belong to
    [Component] and [Scene] and touch none of these fields.) *)
Definition init (cfg : config) : option instance :=
  let i := created (cfg_space cfg) in
  i ← set_pos (cfg_pos cfg) i;
  i ← set_color (cfg_color cfg) i;
  let i := on_light (set_intensity (cfg_intensity cfg)) i in
  let i := on_light (set_constantAttenuation (cfg_constantAttenuation cfg)) i in
  let i := on_light (set_linearAttenuation (cfg_linearAttenuation cfg)) i in
  let i := on_light (set_quadraticAttenuation (cfg_quadraticAttenuation cfg)) i in
  Some (on_light (set_castShadow (cfg_castShadow cfg)) i).

(** *** Sequences of uses *)

(** What a program can do with a light. *)
Inductive use : Type :=
| SetPos (v : vector)
| SetDir (v : vector)
| SetColor (v : vector)
| SetIntensity (v : value)
| SetConstantAttenuation (v : value)
| SetLinearAttenuation (v : value)
| SetQuadraticAttenuation (v : value)
| SetCastShadow (v : value)
| GetShadowViewMatrix
| GetShadowProjMatrix (clientWidth clientHeight : float).

(** The instance after a use; a setter that throws leaves it as it was. *)
Definition after (i : instance) (u : use) : instance :=
  match u with
  | SetPos v => default i (set_pos v i)
  | SetDir v => default i (set_dir v i)
  | SetColor v => default i (set_color v i)
  | SetIntensity v => on_light (set_intensity v) i
  | SetConstantAttenuation v => on_light (set_constantAttenuation v) i
  | SetLinearAttenuation v => on_light (set_linearAttenuation v) i
  | SetQuadraticAttenuation v => on_light (set_quadraticAttenuation v) i
  | SetCastShadow v => on_light (set_castShadow v) i
  | GetShadowViewMatrix => (getShadowViewMatrix i).2
  | GetShadowProjMatrix w h => (getShadowProjMatrix w h i).2
  end.

Definition after_all (i : instance) (us : list use) : instance := foldl after i us.

(** What a computation from the current position and direction gives. *)
Definition fresh_view (i : instance) : list float :=
  lookAtMat4v (pos (_state (light i)))
              (addVec3 (pos (_state (light i))) (dir (_state (light i))) (look i))
              up
              (default identityMat4 (_shadowViewMatrix i)).

(** The three vectors and the attenuation array have three elements. *)
Definition well_shaped (i : instance) : Prop :=
  length (get_pos i) = 3 ∧ length (get_dir i) = 3 ∧ length (get_color i) = 3
  ∧ length (attenuation (_state (light i))) = 3.

End WithMath.

End SpotLightShadow.

(** ** Concrete lights *)

Module ScenarioShadow.
Import Js SpotLight SpotLightShadow.

(** The vectors are Float64Arrays: a number is stored as it is. *)
Definition as_double (x : float) : float := x.

(** Stand-ins for the functions of [math.js] that overwrite their last
    argument: the component-wise sum, and a matrix that just records eye,
    target and up. *)
Definition sum (a b dest : list float) : list float :=
  zip_with PrimFloat.add a b.

Definition recorded (eye target upward dest : list float) : list float :=
  eye ++ target ++ upward.

(** [cfg = {castShadow: true, linearAttenuation: 0.5}] *)
Definition shadow_config : config :=
  mkConfig VUndefined NoVector NoVector NoVector VUndefined
           VUndefined (VNum 0.5%float) VUndefined (VBool true).

(** The light that [init] makes of it. *)
Definition shadow_light : instance :=
  default (created VUndefined) (init as_double shadow_config).

End ScenarioShadow.

(** * Properties *)

(** ** JavaScript values *)

Module JsFacts.
Import Js.

Lemma strict_eq_str (v : value) (s : string) :
  strict_eq v (VStr s) = true ↔ v = VStr s.
Proof.
  destruct v as [| |b|x|s'|r]; simpl; try (split; [discriminate | intros [=]]).
  rewrite String.eqb_eq. split; [intros -> | intros [=]]; congruence.
Qed.

Lemma strict_neq_str (v : value) (s : string) :
  strict_neq v (VStr s) = true ↔ v ≠ VStr s.
Proof.
  unfold strict_neq. rewrite negb_true_iff, <- not_true_iff_false.
  by rewrite strict_eq_str.
Qed.

Lemma strict_eq_false_iff (v : value) :
  strict_eq v (VBool false) = true ↔ v = VBool false.
Proof.
  destruct v as [| |[]|x|s'|r]; simpl; split; congruence.
Qed.

Lemma strict_eq_undefined (v : value) :
  strict_eq v VUndefined = true ↔ v = VUndefined.
Proof.
  destruct v as [| |b|x|s'|r]; simpl; split; congruence.
Qed.

(** A truthy value is not strictly equal to zero. *)
Lemma truthy_nonzero (v : value) :
  truthy v = true → strict_eq v (VNum 0%float) = false.
Proof.
  destruct v as [| |b|x|s'|r]; simpl; try done.
  rewrite negb_true_iff, orb_false_iff. tauto.
Qed.

Lemma truthy_to_boolean (v : value) : truthy (to_boolean v) = truthy v.
Proof. reflexivity. Qed.

End JsFacts.

(** ** SpotLight *)

Module SpotLightFacts.
Import Js SpotLight Scenario.

Lemma strict_eq_bool_refl (b : bool) : strict_eq (VBool b) (VBool b) = true.
Proof. by destruct b. Qed.

(** After a write, the flag is the boolean coercion of what was written. *)
Lemma castShadow_after_set (v : value) (l : t) :
  get_castShadow (set_castShadow v l) = VBool (truthy v).
Proof.
  unfold set_castShadow, get_castShadow, to_boolean.
  destruct (strict_eq (castShadow (_state l)) (VBool (truthy v))) eqn:E; [|done].
  destruct (castShadow (_state l)) as [| |b|x|s|r]; simpl in E; try done.
  apply Bool.eqb_prop in E. by rewrite E.
Qed.

(** C10.  The [castShadow] setter does nothing on an unchanged value:
    writing a value whose boolean coercion is the current [castShadow]
    returns the very same instance (same render state, the shadow view
    matrix not marked dirty, no redraw requested, no "dirty" event fired);
    and writing the same value twice in a row is the same as writing it
    once. *)
Theorem set_castShadow_unchanged_noop (v : Js.value) (l : SpotLight.t) :
  (get_castShadow l = VBool (truthy v) → set_castShadow v l = l)
  ∧ set_castShadow v (set_castShadow v l) = set_castShadow v l.
Proof.
  assert (noop : ∀ l', get_castShadow l' = VBool (truthy v) → set_castShadow v l' = l').
  { intros l' H. unfold set_castShadow, to_boolean.
    unfold get_castShadow in H. by rewrite H, strict_eq_bool_refl. }
  split; [apply noop|].
  apply noop, castShadow_after_set.
Qed.

Lemma set_castShadow_unchanged_noop_witness :
  set_castShadow (VNum 1%float) lit = lit
  ∧ set_castShadow (VNum 1%float) (set_castShadow (VNum 1%float) lit)
    = set_castShadow (VNum 1%float) lit.
Proof.
  destruct (set_castShadow_unchanged_noop (VNum 1%float) lit) as [H1 H2].
  split; [apply H1; reflexivity | exact H2].
Defined.

(** A write that changes the flag marks the view matrix dirty, requests a
    redraw and fires "dirty", in that order. *)
Lemma set_castShadow_changed (v : value) (l : t) :
  get_castShadow l = VBool (negb (truthy v)) →
  set_castShadow v l =
    mkSpotLight (with_castShadow (VBool (truthy v)) (_state l)) true
                (_shadowProjMatrixDirty l)
                (trace l ++ [GlRedraw] ++ [Fire "dirty" (VBool true)]).
Proof.
  intros H. unfold set_castShadow, to_boolean, get_castShadow in *. rewrite H.
  replace (strict_eq _ _) with false by (by destruct (truthy v)).
  unfold fire, glRedraw; simpl. by rewrite <- app_assoc.
Qed.

End SpotLightFacts.

(** ** CameraControl: how the setters move the state *)

Module CameraControlFacts.
Import Js CameraControl.

Lemma prop_insert_eq (o : gmap string value) (k : string) (v : value) :
  prop (<[k := v]> o) k = v.
Proof. unfold prop. by rewrite lookup_insert_eq. Qed.

Lemma prop_insert_ne (o : gmap string value) (k j : string) (v : value) :
  k ≠ j → prop (<[k := v]> o) j = prop o j.
Proof. intros H. unfold prop. by rewrite lookup_insert_ne. Qed.

Section Facts.
Context {L : Type}.
Implicit Types (c : t L) (v : value) (k : string).

Lemma get_config_store_eq c k v : get_config k (store_config k v c) = v.
Proof. apply prop_insert_eq. Qed.

Lemma get_config_store_ne c k j v :
  k ≠ j → get_config j (store_config k v c) = get_config j c.
Proof. apply prop_insert_ne. Qed.

(** [_reset] goes through the handlers and [_updates]; it never reaches
    [_configs], the pivot controller or the log. *)
Lemma reset_frame c :
  _configs (_reset c) = _configs c
  ∧ pivotController (_reset c) = pivotController c
  ∧ errors (_reset c) = errors c.
Proof.
  unfold _reset.
  by destruct (reset_handlers (_handlers c) (_states c) (_updates c)) as [[hs s] u].
Qed.

Lemma get_config_reset c k : get_config k (_reset c) = get_config k c.
Proof. unfold get_config. by rewrite (proj1 (reset_frame c)). Qed.

Lemma get_config_error c k msg : get_config k (error msg c) = get_config k c.
Proof. reflexivity. Qed.

Lemma get_config_with_pivot c k p :
  get_config k (with_pivotController p c) = get_config k c.
Proof. reflexivity. Qed.

(** A write leaves every option it does not name as it was. *)
Lemma perform_config_frame c (w : write) k :
  k ∉ written w → get_config k (perform c w) = get_config k c.
Proof.
  intros Hk.
  destruct w; simpl in *;
    unfold set_pivotElement, set_active, set_pointerEnabled, set_pivoting,
      set_pivotPos, set_dollyToPointer, set_dollyToPivot, set_planView,
      set_firstPerson, set_constrainVertical, set_doublePickFlyTo,
      set_panRightClick, set_rotationInertia, set_dollyRate, set_dollyInertia,
      set_keyboardLayout;
    repeat match goal with
      | |- context [if ?b then _ else _] => destruct b
      end;
    rewrite ?get_config_with_pivot;
    repeat (rewrite get_config_store_ne by (intros E; apply Hk; rewrite <- E; set_solver));
    rewrite ?get_config_error, ?get_config_reset; done.
Qed.

Lemma perform_all_config_frame c (ws : list write) k :
  (∀ w, w ∈ ws → k ∉ written w) →
  get_config k (perform_all c ws) = get_config k c.
Proof.
  revert c. induction ws as [|w ws IH]; intros c H; [done|].
  unfold perform_all in *. simpl. rewrite IH.
  - apply perform_config_frame, H. set_solver.
  - intros w' Hw'. apply H. set_solver.
Qed.

(** An invariant of the options that the initial state has and every write
    keeps holds after the constructor and any writes. *)
Lemma perform_all_invariant (P : t L → Prop) c (ws : list write) :
  P c → (∀ c' w, P c' → P (perform c' w)) → P (perform_all c ws).
Proof.
  intros H0 Hstep. revert c H0.
  induction ws as [|w ws IH]; intros c H0; [done|].
  unfold perform_all in *. simpl. apply IH, Hstep, H0.
Qed.

(** The constructor is its fourteen writes, made on the object literals. *)
Lemma construct_writes pivot (handlers : list (Handler L)) (cfg : gmap string value) :
  construct pivot handlers cfg =
  perform_all (literals pivot handlers)
    [ PlanView (prop cfg "planView");
      FirstPerson (prop cfg "firstPerson");
      ConstrainVertical (prop cfg "constrainVertical");
      KeyboardLayout (prop cfg "keyboardLayout");
      DoublePickFlyTo (prop cfg "doublePickFlyTo");
      PanRightClick (prop cfg "panRightClick");
      Active (prop cfg "active");
      Pivoting (prop cfg "pivoting");
      DollyToPointer (prop cfg "dollyToPointer");
      DollyToPivot (prop cfg "dollyToPivot");
      RotationInertia (prop cfg "rotationInertia");
      DollyInertia (prop cfg "dollyInertia");
      PointerEnabled (VBool true);
      DollyRate (prop cfg "dollyRate") ].
Proof. reflexivity. Qed.

Lemma constructed_invariant (P : t L → Prop) pivot handlers cfg (ws : list write) :
  P (literals pivot handlers) → (∀ c' w, P c' → P (perform c' w)) →
  P (perform_all (construct pivot handlers cfg) ws).
Proof.
  intros H0 Hstep. apply perform_all_invariant; [|done].
  rewrite construct_writes. by apply perform_all_invariant.
Qed.

(** *** dollyRate *)

Lemma get_dollyRate_set c v :
  get_config "dollyRate" (set_dollyRate v c) = if truthy v then v else VNum 10%float.
Proof. unfold set_dollyRate. by rewrite get_config_store_eq. Qed.

Lemma dollyRate_write_nonzero c (w : write) :
  strict_eq (get_config "dollyRate" c) (VNum 0%float) = false →
  strict_eq (get_config "dollyRate" (perform c w)) (VNum 0%float) = false.
Proof.
  intros H.
  destruct (decide ("dollyRate" ∈ written w)) as [Hin|Hout].
  - destruct w; simpl in Hin; set_unfold in Hin;
      try (exfalso; intuition discriminate).
    simpl. rewrite get_dollyRate_set.
    destruct (truthy v) eqn:E; [by apply JsFacts.truthy_nonzero | done].
  - by rewrite perform_config_frame.
Qed.

(** C8.  A write to [dollyRate] stores the written value when it is truthy
    and the default 10.0 when it is falsy ([0], [-0], [null], [undefined],
    [NaN] are falsy), so what it stores is never zero; and since the
    constructor ends with such a write and no other setter stores under
    [dollyRate], the option is never zero in any state the constructor and
    later writes can reach. *)
Theorem dollyRate_never_zero :
  (∀ c v,
     get_config "dollyRate" (set_dollyRate v c)
       = (if truthy v then v else VNum 10%float)
     ∧ strict_eq (get_config "dollyRate" (set_dollyRate v c)) (VNum 0%float) = false)
  ∧ (∀ c, get_config "dollyRate" (set_dollyRate (VNum 0%float) c) = VNum 10%float
          ∧ get_config "dollyRate" (set_dollyRate (VNum (-0)%float) c) = VNum 10%float
          ∧ get_config "dollyRate" (set_dollyRate VNull c) = VNum 10%float
          ∧ get_config "dollyRate" (set_dollyRate VUndefined c) = VNum 10%float
          ∧ get_config "dollyRate" (set_dollyRate (VNum nan) c) = VNum 10%float)
  ∧ (∀ pivot (handlers : list (Handler L)) cfg ws,
       strict_eq (get_config "dollyRate"
                    (perform_all (construct pivot handlers cfg) ws))
                 (VNum 0%float) = false).
Proof.
  split; [|split].
  - intros c v. rewrite get_dollyRate_set. split; [done|].
    destruct (truthy v) eqn:E; [by apply JsFacts.truthy_nonzero | done].
  - intros c. by rewrite !get_dollyRate_set.
  - intros pivot handlers cfg ws.
    apply (constructed_invariant
             (λ c, strict_eq (get_config "dollyRate" c) (VNum 0%float) = false));
      [done | apply dollyRate_write_nonzero].
Qed.

(** *** keyboardLayout *)

(** C4, as the code has it.  A truthy value other than "qwerty" and
    "azerty" leaves [keyboardLayout] at "qwerty" and logs one error; a falsy
    value ([undefined], [null], [false], [0], [NaN], the empty string) also
    leaves it at "qwerty" but logs nothing; "qwerty" and "azerty" are stored
    and nothing is logged. *)
Theorem keyboardLayout_fallback c v :
  let c' := set_keyboardLayout v c in
  (truthy v = true → v ≠ VStr "qwerty" → v ≠ VStr "azerty" →
     get_config "keyboardLayout" c' = VStr "qwerty"
     ∧ errors c' = errors c
         ++ ["Unsupported value for keyboardLayout - defaulting to 'qwerty'"])
  ∧ (truthy v = false →
     get_config "keyboardLayout" c' = VStr "qwerty" ∧ errors c' = errors c)
  ∧ (v = VStr "qwerty" ∨ v = VStr "azerty" →
     get_config "keyboardLayout" c' = v ∧ errors c' = errors c).
Proof.
  unfold set_keyboardLayout, or. split; [|split].
  - intros Ht Hq Ha. rewrite Ht.
    apply JsFacts.strict_neq_str in Hq, Ha. rewrite Hq, Ha. simpl.
    by rewrite get_config_store_eq.
  - intros Ht. rewrite Ht. simpl. by rewrite get_config_store_eq.
  - intros [-> | ->]; simpl; by rewrite get_config_store_eq.
Qed.

(** *** dollyToPointer and dollyToPivot *)

Lemma get_dollyToPointer_set c v :
  get_config "dollyToPointer" (set_dollyToPointer v c) = VBool (truthy v)
  ∧ get_config "dollyToPivot" (set_dollyToPointer v c)
    = (if truthy v then VBool false else get_config "dollyToPivot" c).
Proof.
  unfold set_dollyToPointer. fold (get_config "dollyToPointer"
    (store_config "dollyToPointer" (to_boolean v) c)).
  rewrite get_config_store_eq, JsFacts.truthy_to_boolean.
  destruct (truthy v) eqn:E.
  - rewrite get_config_store_eq, get_config_store_ne, get_config_store_eq by done.
    unfold to_boolean. by rewrite E.
  - rewrite get_config_store_eq, get_config_store_ne by done.
    unfold to_boolean. by rewrite E.
Qed.

Lemma get_dollyToPivot_set c v :
  get_config "dollyToPivot" (set_dollyToPivot v c) = VBool (truthy v)
  ∧ get_config "dollyToPointer" (set_dollyToPivot v c)
    = (if truthy v then VBool false else get_config "dollyToPointer" c).
Proof.
  unfold set_dollyToPivot. fold (get_config "dollyToPivot"
    (store_config "dollyToPivot" (to_boolean v) c)).
  rewrite get_config_store_eq, JsFacts.truthy_to_boolean.
  destruct (truthy v) eqn:E.
  - rewrite get_config_store_eq, get_config_store_ne, get_config_store_eq by done.
    unfold to_boolean. by rewrite E.
  - rewrite get_config_store_eq, get_config_store_ne by done.
    unfold to_boolean. by rewrite E.
Qed.

Lemma exclusive_write c (w : write) :
  both_dolly_targets c = false → both_dolly_targets (perform c w) = false.
Proof.
  unfold both_dolly_targets. intros H.
  destruct (decide ("dollyToPointer" ∈ written w)) as [Hin|Hout].
  - destruct w; simpl in Hin; set_unfold in Hin;
      try (exfalso; intuition discriminate); simpl.
    + destruct (get_dollyToPointer_set c v) as [-> ->].
      by destruct (truthy v).
    + destruct (get_dollyToPivot_set c v) as [-> ->].
      destruct (truthy v); simpl; [done|]. by rewrite andb_false_r.
  - assert ("dollyToPivot" ∉ written w).
    { destruct w; simpl in *; set_unfold; intuition discriminate. }
    by rewrite !perform_config_frame.
Qed.

(** C2.  [dollyToPointer] and [dollyToPivot] are mutually exclusive.  In
    every state, a truthy write to one of them leaves the other at [false]
    (and a falsy one leaves the written flag at [false]); writing [true] to
    [dollyToPointer] and then to [dollyToPivot] ends with [dollyToPointer]
    at [false], and the other way round; and after the constructor and any
    sequence of writes to the properties of the facade, the two flags are
    never both on. *)
Theorem dolly_targets_exclusive :
  (∀ c v, truthy v = true →
          get_config "dollyToPointer" (set_dollyToPointer v c) = VBool true
          ∧ get_config "dollyToPivot" (set_dollyToPointer v c) = VBool false)
  ∧ (∀ c v, truthy v = true →
            get_config "dollyToPivot" (set_dollyToPivot v c) = VBool true
            ∧ get_config "dollyToPointer" (set_dollyToPivot v c) = VBool false)
  ∧ (∀ c, get_config "dollyToPointer"
            (set_dollyToPivot (VBool true) (set_dollyToPointer (VBool true) c))
          = VBool false)
  ∧ (∀ c, get_config "dollyToPivot"
            (set_dollyToPointer (VBool true) (set_dollyToPivot (VBool true) c))
          = VBool false)
  ∧ (∀ c v ws, both_dolly_targets (perform_all (set_dollyToPointer v c) ws) = false
               ∧ both_dolly_targets (perform_all (set_dollyToPivot v c) ws) = false)
  ∧ (∀ pivot (handlers : list (Handler L)) cfg ws,
       both_dolly_targets (perform_all (construct pivot handlers cfg) ws) = false).
Proof.
  repeat apply conj.
  - intros c v Hv. destruct (get_dollyToPointer_set c v) as [-> ->]. by rewrite Hv.
  - intros c v Hv. destruct (get_dollyToPivot_set c v) as [-> ->]. by rewrite Hv.
  - intros c. by destruct (get_dollyToPivot_set (set_dollyToPointer (VBool true) c)
                             (VBool true)) as [_ ->].
  - intros c. by destruct (get_dollyToPointer_set (set_dollyToPivot (VBool true) c)
                             (VBool true)) as [_ ->].
  - intros c v ws. split.
    + apply (perform_all_invariant (λ c', both_dolly_targets c' = false));
        [|apply exclusive_write].
      unfold both_dolly_targets. destruct (get_dollyToPointer_set c v) as [-> ->].
      by destruct (truthy v).
    + apply (perform_all_invariant (λ c', both_dolly_targets c' = false));
        [|apply exclusive_write].
      unfold both_dolly_targets. destruct (get_dollyToPivot_set c v) as [-> ->].
      destruct (truthy v); simpl; [done|]. by rewrite andb_false_r.
  - intros pivot handlers cfg ws.
    apply (constructed_invariant (λ c', both_dolly_targets c' = false));
      [done | apply exclusive_write].
Qed.

(** *** The boolean options *)

Lemma literals_boolean pivot (handlers : list (Handler L)) :
  booleans_are_boolean (literals pivot handlers).
Proof.
  intros k Hk. unfold boolean_options in Hk. set_unfold in Hk.
  repeat (destruct Hk as [-> | Hk]; [reflexivity|]). done.
Qed.

Lemma get_firstPerson_set c v :
  get_config "firstPerson" (set_firstPerson v c) = VBool (truthy v).
Proof.
  unfold set_firstPerson.
  destruct (truthy (prop _ "firstPerson"));
    rewrite ?get_config_with_pivot; apply get_config_store_eq.
Qed.

(** What each setter of a boolean option stores. *)
Lemma stored_booleans c v :
  (get_config "pivoting" (set_pivoting v c) = VBool (truthy v)
   ∧ get_config "planView" (set_planView v c) = VBool (truthy v)
   ∧ get_config "firstPerson" (set_firstPerson v c) = VBool (truthy v)
   ∧ get_config "constrainVertical" (set_constrainVertical v c) = VBool (truthy v)
   ∧ get_config "dollyToPointer" (set_dollyToPointer v c) = VBool (truthy v)
   ∧ get_config "dollyToPivot" (set_dollyToPivot v c) = VBool (truthy v)
   ∧ get_config "pointerEnabled" (set_pointerEnabled v c) = VBool (truthy v))
  ∧ (get_config "active" (set_active v c) = VBool (strict_neq v (VBool false))
     ∧ get_config "doublePickFlyTo" (set_doublePickFlyTo v c)
       = VBool (strict_neq v (VBool false))
     ∧ get_config "panRightClick" (set_panRightClick v c)
       = VBool (strict_neq v (VBool false))).
Proof.
  repeat apply conj;
    try apply get_firstPerson_set;
    try apply (proj1 (get_dollyToPointer_set c v));
    try apply (proj1 (get_dollyToPivot_set c v));
    apply get_config_store_eq.
Qed.

Lemma boolean_write c (w : write) :
  booleans_are_boolean c → booleans_are_boolean (perform c w).
Proof.
  intros H k Hk.
  destruct (decide (k ∈ written w)) as [Hin|Hout];
    [|rewrite perform_config_frame; auto].
  destruct w; simpl in Hin; set_unfold in Hin;
    repeat match goal with H : _ ∨ _ |- _ => destruct H as [-> | H] end;
    try done;
    try (unfold boolean_options in Hk; set_unfold in Hk;
         exfalso; intuition discriminate);
    simpl;
    destruct (stored_booleans c v) as [(E1&E2&E3&E4&E5&E6&E7) (E8&E9&E10)];
    rewrite ?E1, ?E2, ?E3, ?E4, ?E5, ?E6, ?E7, ?E8, ?E9, ?E10; try done.
  - rewrite (proj2 (get_dollyToPointer_set c v)).
    destruct (truthy v); [done | by apply H].
  - rewrite (proj2 (get_dollyToPivot_set c v)).
    destruct (truthy v); [done | by apply H].
Qed.

(** C9.  Every boolean option holds a strict boolean after any setter call.
    The setters of [pivoting], [planView], [firstPerson],
    [constrainVertical], [dollyToPointer], [dollyToPivot] and
    [pointerEnabled] store the truthiness of their argument; those of
    [active], [doublePickFlyTo] and [panRightClick] store [false] for the
    argument [false] and [true] for every other argument, [undefined]
    included; and after the constructor and any sequence of writes all ten
    options are booleans. *)
Theorem boolean_options_hold_booleans :
  (∀ c v,
     get_config "pivoting" (set_pivoting v c) = VBool (truthy v)
     ∧ get_config "planView" (set_planView v c) = VBool (truthy v)
     ∧ get_config "firstPerson" (set_firstPerson v c) = VBool (truthy v)
     ∧ get_config "constrainVertical" (set_constrainVertical v c) = VBool (truthy v)
     ∧ get_config "dollyToPointer" (set_dollyToPointer v c) = VBool (truthy v)
     ∧ get_config "dollyToPivot" (set_dollyToPivot v c) = VBool (truthy v)
     ∧ get_config "pointerEnabled" (set_pointerEnabled v c) = VBool (truthy v))
  ∧ (∀ c,
       get_config "active" (set_active (VBool false) c) = VBool false
       ∧ get_config "doublePickFlyTo" (set_doublePickFlyTo (VBool false) c) = VBool false
       ∧ get_config "panRightClick" (set_panRightClick (VBool false) c) = VBool false)
  ∧ (∀ c v, v ≠ VBool false →
       get_config "active" (set_active v c) = VBool true
       ∧ get_config "doublePickFlyTo" (set_doublePickFlyTo v c) = VBool true
       ∧ get_config "panRightClick" (set_panRightClick v c) = VBool true)
  ∧ (∀ c,
       get_config "active" (set_active VUndefined c) = VBool true
       ∧ get_config "doublePickFlyTo" (set_doublePickFlyTo VUndefined c) = VBool true
       ∧ get_config "panRightClick" (set_panRightClick VUndefined c) = VBool true)
  ∧ (∀ pivot (handlers : list (Handler L)) cfg ws k,
       k ∈ boolean_options →
       is_boolean (get_config k (perform_all (construct pivot handlers cfg) ws)) = true).
Proof.
  repeat apply conj.
  - intros c v. apply stored_booleans.
  - intros c. apply (stored_booleans c (VBool false)).
  - intros c v Hv.
    destruct (stored_booleans c v) as [_ (-> & -> & ->)].
    assert (strict_neq v (VBool false) = true) as ->; [|done].
    unfold strict_neq. apply negb_true_iff, not_true_iff_false.
    by rewrite JsFacts.strict_eq_false_iff.
  - intros c. apply (stored_booleans c VUndefined).
  - intros pivot handlers cfg ws.
    apply (constructed_invariant booleans_are_boolean);
      [apply literals_boolean | apply boolean_write].
Qed.

(** *** firstPerson and the pivot *)

Lemma pivot_after_firstPerson c v :
  pivotController (set_firstPerson v c)
  = if truthy v then endPivot (hidePivot (pivotController c)) else pivotController c.
Proof.
  unfold set_firstPerson.
  fold (get_config "firstPerson" (store_config "firstPerson" (to_boolean v) c)).
  rewrite get_config_store_eq, JsFacts.truthy_to_boolean.
  by destruct (truthy v).
Qed.

(** Of the writes, only [pivotPos], [pivotElement] and [firstPerson] reach
    the pivot controller, and the first two leave its state and the
    visibility of its indicator alone. *)
Lemma pivot_after_write c (w : write) :
  (∀ v, w ≠ FirstPerson v) →
  pivotState (pivotController (perform c w)) = pivotState (pivotController c)
  ∧ indicatorVisible (pivotController (perform c w))
    = indicatorVisible (pivotController c).
Proof.
  intros Hw.
  destruct w; try (by destruct (Hw v)); simpl;
    unfold set_active, set_pointerEnabled, set_dollyToPointer, set_dollyToPivot,
      set_keyboardLayout;
    repeat match goal with
      | |- context [if ?b then _ else _] => destruct b
      end;
    simpl; rewrite ?(proj1 (proj2 (reset_frame c))); done.
Qed.

Lemma first_person_step c (a : action) :
  first_person_without_pivot c → first_person_without_pivot (step c a).
Proof.
  unfold first_person_without_pivot. intros H.
  destruct a as [w|e]; simpl.
  - assert ((∃ v, w = FirstPerson v) ∨ (∀ v, w ≠ FirstPerson v)) as [[v ->]|Hw'].
    { destruct w; try (right; discriminate). left; eauto. }
    + simpl. rewrite get_firstPerson_set, pivot_after_firstPerson.
      intros [= ->]. done.
    + destruct (pivot_after_write c w Hw') as [-> ->].
      rewrite perform_config_frame; [done|].
      destruct w; simpl; set_unfold; try intuition discriminate.
      by destruct (Hw' v).
  - unfold pivot_step.
    destruct e, (pivotState (pivotController c)) eqn:Es; simpl;
      repeat match goal with
        | |- context [if ?b then _ else _] => destruct b eqn:Hguard
        end;
      rewrite ?get_config_with_pivot; simpl; intros Hf;
      try (destruct (H Hf) as [? ?]; done).
    rewrite Hf in Hguard. simpl in Hguard. by rewrite andb_false_r in Hguard.
Qed.

Lemma run_invariant (P : t L → Prop) c (acts : list action) :
  P c → (∀ c' a, P c' → P (step c' a)) → P (run c acts).
Proof.
  intros H0 Hstep. revert c H0.
  induction acts as [|a acts IH]; intros c H0; [done|].
  unfold run in *. simpl. apply IH, Hstep, H0.
Qed.

(** C3.  A truthy write to [firstPerson] stores [true], hides the pivot
    indicator and ends pivoting, whatever state the pivot was in; and in
    every state reached from the constructor by writes to the facade and by
    the inputs that drive the pivot, [firstPerson === true] implies that the
    pivot is [Inactive] and its indicator hidden. *)
Theorem firstPerson_forces_pivot_inactive :
  (∀ c v, truthy v = true →
     get_config "firstPerson" (set_firstPerson v c) = VBool true
     ∧ pivotState (pivotController (set_firstPerson v c)) = Inactive
     ∧ indicatorVisible (pivotController (set_firstPerson v c)) = false)
  ∧ (∀ pivot (handlers : list (Handler L)) cfg acts,
       get_config "firstPerson" (run (construct pivot handlers cfg) acts) = VBool true →
       pivotState (pivotController (run (construct pivot handlers cfg) acts)) = Inactive
       ∧ indicatorVisible (pivotController (run (construct pivot handlers cfg) acts))
         = false).
Proof.
  split.
  - intros c v Hv. rewrite get_firstPerson_set, pivot_after_firstPerson, Hv. done.
  - intros pivot handlers cfg acts.
    apply (run_invariant first_person_without_pivot);
      [|apply first_person_step].
    apply (constructed_invariant first_person_without_pivot pivot handlers cfg []).
    + intros Hf. discriminate Hf.
    + intros c' w. apply (first_person_step c' (Write w)).
Qed.

(** *** What a setter leaves alone *)

Lemma store_config_same_outside c k v : same_outside [k] c (store_config k v c).
Proof.
  repeat split. intros j Hj. simpl. apply lookup_insert_ne. set_solver.
Qed.

Lemma store_two_same_outside c k1 v1 k2 v2 :
  same_outside [k1; k2] c (store_config k2 v2 (store_config k1 v1 c)).
Proof.
  repeat split. intros j Hj. simpl.
  rewrite !lookup_insert_ne; [done| |]; set_solver.
Qed.

(** C5, as the code has it.  The setters of [pivoting], [planView],
    [constrainVertical], [doublePickFlyTo], [panRightClick],
    [rotationInertia], [dollyInertia] and [dollyRate] change nothing but
    their own option.  Those of [active] and [pointerEnabled] first run
    [_reset()] and then change nothing but their own option.  A falsy write
    to [dollyToPointer], [dollyToPivot], [firstPerson] or [keyboardLayout],
    and a write of "qwerty" or "azerty" to [keyboardLayout], change nothing
    but the option written.  A truthy write to [dollyToPointer] also stores
    [false] under [dollyToPivot], and the other way round; a truthy write to
    [firstPerson] also hides the pivot and ends pivoting; a truthy write of
    an unsupported [keyboardLayout] also logs an error. *)
Theorem setters_frame c v :
  (same_outside ["pivoting"] c (set_pivoting v c)
   ∧ same_outside ["planView"] c (set_planView v c)
   ∧ same_outside ["constrainVertical"] c (set_constrainVertical v c)
   ∧ same_outside ["doublePickFlyTo"] c (set_doublePickFlyTo v c)
   ∧ same_outside ["panRightClick"] c (set_panRightClick v c)
   ∧ same_outside ["rotationInertia"] c (set_rotationInertia v c)
   ∧ same_outside ["dollyInertia"] c (set_dollyInertia v c)
   ∧ same_outside ["dollyRate"] c (set_dollyRate v c))
  ∧ (same_outside ["active"] (_reset c) (set_active v c)
     ∧ same_outside ["pointerEnabled"] (_reset c) (set_pointerEnabled v c))
  ∧ (truthy v = false →
       same_outside ["dollyToPointer"] c (set_dollyToPointer v c)
       ∧ same_outside ["dollyToPivot"] c (set_dollyToPivot v c)
       ∧ same_outside ["firstPerson"] c (set_firstPerson v c)
       ∧ same_outside ["keyboardLayout"] c (set_keyboardLayout v c))
  ∧ (v = VStr "qwerty" ∨ v = VStr "azerty" →
       same_outside ["keyboardLayout"] c (set_keyboardLayout v c))
  ∧ (truthy v = true →
       (same_outside ["dollyToPointer"; "dollyToPivot"] c (set_dollyToPointer v c)
        ∧ get_config "dollyToPivot" (set_dollyToPointer v c) = VBool false)
       ∧ (same_outside ["dollyToPivot"; "dollyToPointer"] c (set_dollyToPivot v c)
          ∧ get_config "dollyToPointer" (set_dollyToPivot v c) = VBool false)
       ∧ same_outside ["firstPerson"]
           (with_pivotController (endPivot (hidePivot (pivotController c))) c)
           (set_firstPerson v c)
       ∧ (v ≠ VStr "qwerty" → v ≠ VStr "azerty" →
          same_outside ["keyboardLayout"]
            (error "Unsupported value for keyboardLayout - defaulting to 'qwerty'" c)
            (set_keyboardLayout v c))).
Proof.
  split; [|split; [|split; [|split]]].
  - repeat split; intros j Hj; simpl; apply lookup_insert_ne; set_solver.
  - split; apply store_config_same_outside.
  - intros Hv.
    unfold set_dollyToPointer, set_dollyToPivot, set_firstPerson, set_keyboardLayout, or.
    repeat match goal with
      | |- context [truthy (prop (_configs (store_config ?k ?x ?y)) ?k)] =>
          fold (get_config k (store_config k x y));
          rewrite get_config_store_eq, JsFacts.truthy_to_boolean
      end.
    rewrite Hv. simpl. repeat split; intros j Hj; simpl; apply lookup_insert_ne; set_solver.
  - unfold set_keyboardLayout.
    intros [-> | ->]; simpl; apply store_config_same_outside.
  - intros Hv. split; [|split; [|split]].
    + split; [|destruct (get_dollyToPointer_set c v) as [_ ->]; by rewrite Hv].
      unfold set_dollyToPointer.
      fold (get_config "dollyToPointer" (store_config "dollyToPointer" (to_boolean v) c)).
      rewrite get_config_store_eq, JsFacts.truthy_to_boolean, Hv.
      apply store_two_same_outside.
    + split; [|destruct (get_dollyToPivot_set c v) as [_ ->]; by rewrite Hv].
      unfold set_dollyToPivot.
      fold (get_config "dollyToPivot" (store_config "dollyToPivot" (to_boolean v) c)).
      rewrite get_config_store_eq, JsFacts.truthy_to_boolean, Hv.
      apply store_two_same_outside.
    + unfold set_firstPerson.
      fold (get_config "firstPerson" (store_config "firstPerson" (to_boolean v) c)).
      rewrite get_config_store_eq, JsFacts.truthy_to_boolean, Hv.
      repeat split. intros j Hj. simpl. apply lookup_insert_ne. set_solver.
    + intros Hq Ha. unfold set_keyboardLayout, or. rewrite Hv.
      apply JsFacts.strict_neq_str in Hq, Ha. rewrite Hq, Ha. simpl.
      apply store_config_same_outside.
Qed.

(** *** What [_reset] reaches *)

Lemma reset_handlers_updates (hs : list (Handler L)) states updates :
  Forall leaves_updates hs →
  (reset_handlers hs states updates).2 = updates
  ∧ Forall leaves_updates (reset_handlers hs states updates).1.1.
Proof.
  intros H. revert states updates.
  induction H as [|h hs Hh Hhs IH]; intros states updates; [done|].
  simpl. unfold reset_handler, leaves_updates in *.
  destruct (h_reset h) as [f|] eqn:Ef.
  - specialize (IH (ctx_states (f (mkHandlerCtx (h_local h) states updates)))
                   (ctx_updates (f (mkHandlerCtx (h_local h) states updates)))).
    destruct (reset_handlers hs _ _) as [[hs1 s2] u2]. simpl in *.
    destruct IH as [-> IH]. split; [apply Hh|].
    constructor; [|done]. simpl. apply Hh.
  - specialize (IH states updates).
    destruct (reset_handlers hs _ _) as [[hs1 s2] u2]. simpl in *.
    destruct IH as [-> IH]. split; [done|].
    constructor; [|done]. by rewrite Ef.
Qed.

(** When the handlers keep to their own state, [_reset] writes [0] under
    "panDeltaX", "panDeltaY", "rotateDeltaX", "rotateDeltaY" and "dolyDelta",
    and under no other name. *)
Lemma reset_updates c :
  Forall leaves_updates (_handlers c) →
  _updates (_reset c)
  = <["dolyDelta" := VNum 0%float]>
      (<["rotateDeltaY" := VNum 0%float]>
         (<["rotateDeltaX" := VNum 0%float]>
            (<["panDeltaY" := VNum 0%float]>
               (<["panDeltaX" := VNum 0%float]> (_updates c)))))
  ∧ Forall leaves_updates (_handlers (_reset c)).
Proof.
  intros H. unfold _reset.
  destruct (reset_handlers_updates (_handlers c) (_states c) (_updates c) H) as [Hu Hh].
  destruct (reset_handlers _ _ _) as [[hs s] u]. simpl in *. by rewrite Hu.
Qed.

(** The pending dolly and the pending pan along the view axis survive a
    write to [active]. *)
Lemma set_active_keeps_dollyDelta c v :
  Forall leaves_updates (_handlers c) →
  prop (_updates (set_active v c)) "dollyDelta" = prop (_updates c) "dollyDelta"
  ∧ prop (_updates (set_active v c)) "panDeltaZ" = prop (_updates c) "panDeltaZ"
  ∧ Forall leaves_updates (_handlers (set_active v c)).
Proof.
  intros H. destruct (reset_updates c H) as [Hu Hh].
  unfold set_active. simpl. rewrite Hu.
  by rewrite !prop_insert_ne.
Qed.

End Facts.

(** *** On concrete instances *)

Import Scenario.

(** C1, on the code.  With a wheel turn and a keyboard pan along the view
    axis pending and two drags in progress, toggling [active] to [false] and
    back to [true] resets the handlers and zeroes the four rotate and pan
    deltas that [_reset] names, but the pending "dollyDelta" and "panDeltaZ"
    are still there: [_reset] stores its last zero under the misspelt
    "dolyDelta" and has no line for "panDeltaZ". *)
Theorem toggling_active_keeps_dollyDelta :
  let c := set_active (VBool true) (set_active (VBool false) mid_gesture) in
  (prop (_updates mid_gesture) "dollyDelta" = VNum 1%float
   ∧ prop (_updates mid_gesture) "panDeltaZ" = VNum 2%float
   ∧ prop (_updates mid_gesture) "rotateDeltaX" = VNum 3%float)
  ∧ get_config "active" c = VBool true
  ∧ h_local <$> _handlers c = [false; false; false; false; false; false; false]
  ∧ (prop (_updates c) "rotateDeltaX" = VNum 0%float
     ∧ prop (_updates c) "rotateDeltaY" = VNum 0%float
     ∧ prop (_updates c) "panDeltaX" = VNum 0%float
     ∧ prop (_updates c) "panDeltaY" = VNum 0%float)
  ∧ prop (_updates c) "panDeltaZ" = VNum 2%float
  ∧ prop (_updates c) "dollyDelta" = VNum 1%float
  ∧ _updates c !! "dolyDelta" = Some (VNum 0%float).
Proof. vm_compute. repeat split. Qed.

(** The same, after a single write to [pointerEnabled]. *)
Lemma pointerEnabled_keeps_dollyDelta :
  prop (_updates (set_pointerEnabled (VBool false) mid_gesture)) "dollyDelta"
  = VNum 1%float.
Proof. vm_compute. reflexivity. Qed.

Lemma dolly_targets_exclusive_witness :
  get_config "dollyToPointer" (set_dollyToPointer (VNum 1%float) pivoting_drag)
  = VBool true
  ∧ get_config "dollyToPivot" (set_dollyToPointer (VNum 1%float) pivoting_drag)
    = VBool false.
Proof.
  apply (proj1 (@dolly_targets_exclusive bool) pivoting_drag (VNum 1%float)).
  reflexivity.
Defined.

Lemma firstPerson_forces_pivot_inactive_witness :
  pivotState (pivotController pivoting_drag) = Dragging
  ∧ get_config "firstPerson" (set_firstPerson (VBool true) pivoting_drag) = VBool true
  ∧ pivotState (pivotController (set_firstPerson (VBool true) pivoting_drag)) = Inactive
  ∧ indicatorVisible (pivotController (set_firstPerson (VBool true) pivoting_drag))
    = false.
Proof.
  split; [reflexivity|].
  apply (proj1 (@firstPerson_forces_pivot_inactive bool) pivoting_drag (VBool true)).
  reflexivity.
Defined.

Lemma keyboardLayout_fallback_witness :
  get_config "keyboardLayout" (set_keyboardLayout (VStr "dvorak") fresh) = VStr "qwerty"
  ∧ errors (set_keyboardLayout (VStr "dvorak") fresh)
    = errors fresh ++ ["Unsupported value for keyboardLayout - defaulting to 'qwerty'"].
Proof.
  apply (proj1 (keyboardLayout_fallback fresh (VStr "dvorak")));
    [reflexivity | discriminate | discriminate].
Defined.

(** C4 fails for a falsy value: [undefined] is neither "qwerty" nor
    "azerty", and writing it logs nothing. *)
Lemma keyboardLayout_undefined_is_silent :
  VUndefined ≠ VStr "qwerty" ∧ VUndefined ≠ VStr "azerty"
  ∧ get_config "keyboardLayout" (set_keyboardLayout VUndefined fresh) = VStr "qwerty"
  ∧ errors (set_keyboardLayout VUndefined fresh) = errors fresh.
Proof.
  split; [discriminate|]. split; [discriminate|].
  split; vm_compute; reflexivity.
Qed.

Lemma setters_frame_witness :
  same_outside ["firstPerson"]
    (with_pivotController (endPivot (hidePivot (pivotController pivoting_drag)))
                          pivoting_drag)
    (set_firstPerson (VBool true) pivoting_drag).
Proof.
  apply (proj2 (proj2 (proj2 (proj2 (setters_frame pivoting_drag (VBool true)))))).
  reflexivity.
Defined.

(** C5 fails for [dollyToPointer]: on an instance that dollies to the
    pivot, writing [true] to [dollyToPointer] changes [dollyToPivot] as
    well. *)
Lemma dollyToPointer_write_reaches_dollyToPivot :
  ¬ same_outside ["dollyToPointer"] pivoting_drag
      (set_dollyToPointer (VBool true) pivoting_drag).
Proof.
  assert ("dollyToPivot" ∉ ["dollyToPointer"]) as Hn
    by (set_unfold; intuition discriminate).
  intros [H _]. specialize (H "dollyToPivot" Hn).
  vm_compute in H. discriminate H.
Qed.

(** C5 fails for [firstPerson] too: a write of [true] takes a pivot that
    was being dragged to [Inactive]. *)
Lemma firstPerson_write_reaches_pivot :
  ¬ same_outside ["firstPerson"] pivoting_drag
      (set_firstPerson (VBool true) pivoting_drag).
Proof. intros (_ & _ & _ & H & _). vm_compute in H. discriminate H. Qed.

Lemma boolean_options_hold_booleans_witness :
  get_config "active" (set_active (VNum 0%float) fresh) = VBool true
  ∧ get_config "doublePickFlyTo" (set_doublePickFlyTo (VNum 0%float) fresh) = VBool true
  ∧ get_config "panRightClick" (set_panRightClick (VNum 0%float) fresh) = VBool true.
Proof.
  apply (proj1 (proj2 (proj2 (@boolean_options_hold_booleans bool))) fresh (VNum 0%float)).
  discriminate.
Defined.

End CameraControlFacts.

(** ** Tap recognition *)

Module TapRecognitionFacts.
Import Js CameraControl CameraControlFacts TapRecognition.

(** No setter stores under the tap thresholds: they are what the
    constructor's object literal says, in every state. *)
Lemma thresholds_constant {L : Type} pivot (handlers : list (Handler L)) cfg ws :
  get_config "tapDistanceThreshold" (perform_all (construct pivot handlers cfg) ws)
  = VNum 4%float
  ∧ get_config "tapInterval" (perform_all (construct pivot handlers cfg) ws)
    = VNum 150%float.
Proof.
  rewrite construct_writes.
  split; rewrite !perform_all_config_frame; try reflexivity;
    intros w _; destruct w; simpl; set_unfold; intuition discriminate.
Qed.

(** C7.  A press/release pair is a tap if and only if its displacement is
    below [tapDistanceThreshold] and its duration below [tapInterval],
    where the displacement is the distance in pixels between the two canvas
    positions, [sqrt ((x1 - x0)^2 + (y1 - y0)^2)], and the duration is the
    difference of the two time stamps, [t1 - t0].  In every state of the
    facade the thresholds are 4 pixels and 150 milliseconds, so that a
    press at [t = 0] released at the same place at [t = 100] is a tap and
    one released at [t = 200] is not; nor is one released exactly 150 ms
    after the press, or exactly 4 pixels away, or 5 pixels away (3 across
    and 4 down), while one released 149 ms later, or a pixel away in each
    direction, is, whenever the press was. *)
Theorem tap_iff_below_thresholds :
  (∀ configs threshold interval down up,
     prop configs "tapDistanceThreshold" = VNum threshold →
     prop configs "tapInterval" = VNum interval →
     is_tap configs down up = true
     ↔ PrimFloat.ltb (displacement down up) threshold = true
       ∧ PrimFloat.ltb (duration down up) interval = true)
  ∧ (∀ configs threshold interval (x0 y0 t0 x1 y1 t1 : float),
       prop configs "tapDistanceThreshold" = VNum threshold →
       prop configs "tapInterval" = VNum interval →
       is_tap configs (mkPointerEvent x0 y0 t0) (mkPointerEvent x1 y1 t1) = true
       ↔ PrimFloat.ltb
           (PrimFloat.sqrt ((x1 - x0) * (x1 - x0) + (y1 - y0) * (y1 - y0)))
           threshold = true
         ∧ PrimFloat.ltb (t1 - t0) interval = true)%float
  ∧ (∀ (L : Type) pivot (handlers : list (Handler L)) cfg ws,
       let configs := _configs (perform_all (construct pivot handlers cfg) ws) in
       prop configs "tapInterval" = VNum 150%float
       ∧ is_tap configs (mkPointerEvent 120 80 0) (mkPointerEvent 120 80 100) = true
       ∧ is_tap configs (mkPointerEvent 120 80 0) (mkPointerEvent 120 80 200) = false
       ∧ prop configs "tapDistanceThreshold" = VNum 4%float
       ∧ (∀ x0 y0 t0 x1 y1 t1 : float,
            is_tap configs (mkPointerEvent x0 y0 t0) (mkPointerEvent x1 y1 t1)
            = (PrimFloat.ltb
                 (PrimFloat.sqrt ((x1 - x0) * (x1 - x0) + (y1 - y0) * (y1 - y0)))
                 4
               && PrimFloat.ltb (t1 - t0) 150)%float)
       ∧ (is_tap configs (mkPointerEvent 120 80 1000)
                         (mkPointerEvent 121 81 1100) = true
          ∧ is_tap configs (mkPointerEvent 120 80 1000)
                           (mkPointerEvent 120 80 1149) = true
          ∧ is_tap configs (mkPointerEvent 120 80 1000)
                           (mkPointerEvent 120 80 1150) = false
          ∧ is_tap configs (mkPointerEvent 120 80 1000)
                           (mkPointerEvent 124 80 1100) = false
          ∧ is_tap configs (mkPointerEvent 120 80 1000)
                           (mkPointerEvent 123 84 1100) = false
          ∧ is_tap configs (mkPointerEvent 123 84 1000)
                           (mkPointerEvent 120 80 1100) = false)).
Proof.
  split; [|split].
  - intros configs threshold interval down up Hd Hi.
    unfold is_tap. rewrite Hd, Hi. apply andb_true_iff.
  - intros configs threshold interval x0 y0 t0 x1 y1 t1 Hd Hi.
    unfold is_tap, displacement, duration. cbn [canvasX canvasY timeStamp].
    rewrite Hd, Hi. apply andb_true_iff.
  - intros L pivot handlers cfg ws configs.
    destruct (thresholds_constant pivot handlers cfg ws) as [Hd Hi].
    unfold get_config in Hd, Hi. fold configs in Hd, Hi.
    unfold is_tap. rewrite Hd, Hi.
    split; [reflexivity|]. split; [reflexivity|]. split; [reflexivity|].
    split; [reflexivity|]. split; [|repeat split].
    intros x0 y0 t0 x1 y1 t1. reflexivity.
Qed.

Lemma tap_iff_below_thresholds_witness :
  is_tap initial_configs (mkPointerEvent 120 80 1000) (mkPointerEvent 123 84 1100) = true
  ↔ PrimFloat.ltb (displacement (mkPointerEvent 120 80 1000)
                                (mkPointerEvent 123 84 1100))
                  4 = true
    ∧ PrimFloat.ltb (duration (mkPointerEvent 120 80 1000)
                              (mkPointerEvent 123 84 1100))
                    150 = true.
Proof.
  apply (proj1 tap_iff_below_thresholds initial_configs 4%float 150%float);
    reflexivity.
Defined.

(** The displacement of the pair of the witness is 5 pixels and its
    duration 100 ms: it is not a tap. *)
Lemma tap_measures :
  displacement (mkPointerEvent 120 80 1000) (mkPointerEvent 123 84 1100) = 5%float
  ∧ duration (mkPointerEvent 120 80 1000) (mkPointerEvent 123 84 1100) = 100%float
  ∧ is_tap initial_configs (mkPointerEvent 120 80 1000)
                           (mkPointerEvent 123 84 1100) = false.
Proof. repeat split. Qed.

End TapRecognitionFacts.

(** ** Inertia *)

Module CameraUpdaterFacts.
Import CameraUpdater.
#[local] Open Scope Q_scope.

Lemma power_nonneg (f : Q) (n : nat) : 0 <= f -> 0 <= power f n.
Proof.
  intros Hf. induction n as [|n IH]; simpl; [lra|]. nra.
Qed.

Lemma power_decreasing (f : Q) (n : nat) :
  0 <= f -> f < 1 -> power f (S n) <= power f n.
Proof.
  intros H0 H1. simpl. pose proof (power_nonneg f n H0).
  assert (0 <= (1 - f) * power f n) by (apply Qmult_le_0_compat; lra). lra.
Qed.

Lemma bernoulli (f : Q) (n : nat) :
  0 <= f -> f < 1 -> (1 + inject_Z (Z.of_nat n) * (1 - f)) * power f n <= 1.
Proof.
  intros H0 H1. induction n as [|n IH].
  - change (inject_Z (Z.of_nat 0)) with 0. simpl power. lra.
  - pose proof (power_nonneg f n H0) as Hp.
    rewrite Nat2Z.inj_succ. unfold Z.succ. rewrite inject_Z_plus.
    simpl power.
    set (a := inject_Z (Z.of_nat n)) in *.
    assert (0 <= a) by (unfold a; change 0 with (inject_Z 0); rewrite <- Zle_Qle; lia).
    set (p := power f n) in *.
    change (inject_Z 1) with 1.
    assert (0 <= (1 - f) * (1 - f) * ((a + 1) * p)).
    { repeat apply Qmult_le_0_compat; lra. }
    assert (0 <= f * (1 - (1 + a * (1 - f)) * p)).
    { apply Qmult_le_0_compat; lra. }
    lra.
Qed.

Lemma cutoff_wd (eps x y : Q) : x == y -> cutoff eps x == cutoff eps y.
Proof.
  intros E. unfold cutoff.
  destruct (Qlt_le_dec (Qabs x) eps) as [Hx|Hx], (Qlt_le_dec (Qabs y) eps) as [Hy|Hy];
    try lra; rewrite E in Hx; lra.
Qed.

Lemma cutoff_small (eps x : Q) : Qabs x < eps -> cutoff eps x == 0.
Proof.
  intros H. unfold cutoff. destruct (Qlt_le_dec (Qabs x) eps); lra.
Qed.

Lemma cutoff_near (eps x : Q) : 0 < eps -> Qabs (cutoff eps x - x) < eps.
Proof.
  intros He. unfold cutoff. destruct (Qlt_le_dec (Qabs x) eps) as [H|H].
  - apply Qabs_Qlt_condition in H. apply Qabs_Qlt_condition. lra.
  - apply Qabs_Qlt_condition. lra.
Qed.

(** Scaling never takes a residual out of the dead band. *)
Lemma scaled_small (f eps x : Q) :
  0 <= f -> f < 1 -> Qabs x < eps -> Qabs (x * f) < eps.
Proof.
  intros H0 H1 Hx. rewrite Qabs_Qmult, (Qabs_pos f H0).
  pose proof (Qabs_nonneg x) as Hn.
  assert (0 <= (1 - f) * Qabs x) by (apply Qmult_le_0_compat; lra). lra.
Qed.

Lemma cutoff_scaled (f eps x : Q) :
  0 <= f -> f < 1 -> 0 < eps ->
  cutoff eps (cutoff eps x * f) == cutoff eps (x * f).
Proof.
  intros H0 H1 He. unfold cutoff at 2.
  destruct (Qlt_le_dec (Qabs x) eps) as [Hx|Hx]; [|reflexivity].
  rewrite (cutoff_small eps (x * f) (scaled_small f eps x H0 H1 Hx)).
  apply cutoff_small. apply Qabs_Qlt_condition. lra.
Qed.

Lemma tick_idle (f eps r : Q) :
  0 <= f -> snd (tick f eps r 0) == cutoff eps (r * f).
Proof.
  intros H0. unfold tick. simpl. apply cutoff_wd.
  destruct (Qlt_le_dec 0 f) as [Hf|Hf]; [lra|].
  assert (f == 0) as -> by lra. lra.
Qed.

Lemma coast_succ (f eps d : Q) (n : nat) :
  0 <= f -> f < 1 -> 0 < eps ->
  coast f eps d (S n) == cutoff eps (d * power f (S n)).
Proof.
  intros H0 H1 He. induction n as [|n IH].
  - simpl coast. rewrite (tick_idle f eps d H0). apply cutoff_wd. simpl. lra.
  - change (coast f eps d (S (S n)))
      with (snd (tick f eps (coast f eps d (S n)) 0)).
    rewrite (tick_idle f eps _ H0).
    rewrite (cutoff_wd eps _ (cutoff eps (d * power f (S n)) * f))
      by (by rewrite IH).
    rewrite (cutoff_scaled f eps _ H0 H1 He). apply cutoff_wd.
    change (power f (S (S n))) with (f * power f (S n)). ring.
Qed.

Lemma coast_near (f eps d : Q) (n : nat) :
  0 <= f -> f < 1 -> 0 < eps ->
  Qabs (coast f eps d n - d * power f n) < eps.
Proof.
  intros H0 H1 He. destruct n as [|n].
  - change (Qabs (d - d * 1) < eps). apply Qabs_Qlt_condition. lra.
  - rewrite (coast_succ f eps d n H0 H1 He). by apply cutoff_near.
Qed.

Lemma bound_reached (f eps d : Q) (n : nat) :
  0 <= f -> f < 1 -> 0 < eps -> (settle_bound f eps d <= n)%nat ->
  Qabs d < inject_Z (Z.of_nat n) * (eps * (1 - f)).
Proof.
  intros H0 H1 He Hn. unfold settle_bound in Hn.
  set (q := Qabs d / (eps * (1 - f))) in *.
  assert (0 < eps * (1 - f)) as Hg by (apply Qmult_lt_0_compat; lra).
  assert (q < inject_Z (Z.of_nat n)) as Hq.
  { apply (Qlt_le_trans _ (inject_Z (Qfloor q + 1))); [apply Qlt_floor|].
    rewrite <- Zle_Qle. lia. }
  assert (Qabs d == q * (eps * (1 - f))) as ->.
  { unfold q. field. lra. }
  apply Qmult_lt_compat_r; done.
Qed.

Lemma settled (f eps d : Q) (n : nat) :
  0 <= f -> f < 1 -> 0 < eps -> (settle_bound f eps d <= n)%nat ->
  coast f eps d n == 0.
Proof.
  intros H0 H1 He Hn.
  pose proof (bound_reached f eps d n H0 H1 He Hn) as Hb.
  destruct n as [|n].
  { exfalso. unfold settle_bound in Hn.
    pose proof (Qabs_nonneg d). change (inject_Z (Z.of_nat 0)) with 0 in Hb. lra. }
  rewrite (coast_succ f eps d n H0 H1 He). apply cutoff_small.
  rewrite Qabs_Qmult, (Qabs_pos (power f (S n))) by (by apply power_nonneg).
  pose proof (bernoulli f (S n) H0 H1) as Hbern.
  pose proof (power_nonneg f (S n) H0) as Hp.
  pose proof (Qabs_nonneg d) as Hd.
  set (a := inject_Z (Z.of_nat (S n))) in *.
  set (p := power f (S n)) in *.
  set (m := Qabs d) in *.
  destruct (Qlt_le_dec 0 p) as [Hpos|Hzero].
  - assert (m * p < a * (eps * (1 - f)) * p) by (apply Qmult_lt_compat_r; done).
    assert (0 <= eps * (1 - (1 + a * (1 - f)) * p)).
    { apply Qmult_le_0_compat; lra. }
    assert (0 < eps * p) by (apply Qmult_lt_0_compat; lra).
    lra.
  - assert (p == 0) as -> by lra. lra.
Qed.

(** C6.  For an inertia factor [f] in [0,1), a dead band [eps] above zero
    and a nonzero initial delta [d], with no new input: the residual after
    [n] ticks is within [eps] of [d * f^n] (from the first tick on it is
    [d * f^n] itself, zeroed when below [eps]); it is zero from tick
    [settle_bound f eps d] on; and for [f = 0] it is nonzero before the
    first tick and zero after it. *)
Theorem inertia_decays (f eps d : Q) :
  0 <= f -> f < 1 -> 0 < eps -> ~ d == 0 ->
  (forall n, Qabs (coast f eps d n - d * power f n) < eps)
  /\ (forall n, coast f eps d (S n) == cutoff eps (d * power f (S n)))
  /\ (forall n, (settle_bound f eps d <= n)%nat -> coast f eps d n == 0)
  /\ (f == 0 -> ~ coast f eps d 0 == 0 /\ coast f eps d 1 == 0).
Proof.
  intros H0 H1 He Hd. repeat apply conj.
  - intros n. by apply coast_near.
  - intros n. by apply coast_succ.
  - intros n. by apply settled.
  - intros Hf. split; [exact Hd|].
    rewrite (coast_succ f eps d 0 H0 H1 He). apply cutoff_small.
    change (power f 1) with (f * 1). apply Qabs_Qlt_condition.
    assert (d * (f * 1) == 0) as -> by (rewrite Hf; ring). lra.
Qed.

(** Half of the motion is kept per tick, the dead band is one unit and the
    camera starts eight units per tick fast: the bound is seventeen ticks. *)
Lemma inertia_decays_witness :
  settle_bound (1 # 2) 1 8 = 17%nat
  /\ coast (1 # 2) 1 8 17 == 0
  /\ Qabs (coast (1 # 2) 1 8 2 - 8 * power (1 # 2) 2) < 1.
Proof.
  assert (0 <= 1 # 2) as H0 by (vm_compute; discriminate).
  assert (1 # 2 < 1) as H1 by reflexivity.
  assert ((0 : Q) < 1) as He by reflexivity.
  assert (~ (8 : Q) == 0) as Hd by (vm_compute; discriminate).
  destruct (inertia_decays (1 # 2) 1 8 H0 H1 He Hd) as (Hnear & _ & Hsettle & _).
  split; [reflexivity|]. split; [apply Hsettle; vm_compute; lia | apply Hnear].
Defined.

End CameraUpdaterFacts.

(** * Further properties *)

(** ** CameraControl: the constructor, and how writes compose *)

Module CameraControlWritesFacts.
Import Js CameraControl CameraControlFacts CameraControlWrites.

Section Facts.
Context {L : Type}.
Implicit Types (c : t L) (v : value) (k : string) (w : write).

(** *** The setters with a branch, branch by branch *)

Lemma set_dollyToPointer_cases c v :
  set_dollyToPointer v c
  = if truthy v
    then store_config "dollyToPivot" (VBool false)
           (store_config "dollyToPointer" (VBool true) c)
    else store_config "dollyToPointer" (VBool false) c.
Proof.
  unfold set_dollyToPointer.
  fold (get_config "dollyToPointer" (store_config "dollyToPointer" (to_boolean v) c)).
  rewrite get_config_store_eq, JsFacts.truthy_to_boolean. unfold to_boolean.
  by destruct (truthy v).
Qed.

Lemma set_dollyToPivot_cases c v :
  set_dollyToPivot v c
  = if truthy v
    then store_config "dollyToPointer" (VBool false)
           (store_config "dollyToPivot" (VBool true) c)
    else store_config "dollyToPivot" (VBool false) c.
Proof.
  unfold set_dollyToPivot.
  fold (get_config "dollyToPivot" (store_config "dollyToPivot" (to_boolean v) c)).
  rewrite get_config_store_eq, JsFacts.truthy_to_boolean. unfold to_boolean.
  by destruct (truthy v).
Qed.

Lemma set_firstPerson_cases c v :
  set_firstPerson v c
  = if truthy v
    then with_pivotController (endPivot (hidePivot (pivotController c)))
           (store_config "firstPerson" (VBool true) c)
    else store_config "firstPerson" (VBool false) c.
Proof.
  unfold set_firstPerson.
  fold (get_config "firstPerson" (store_config "firstPerson" (to_boolean v) c)).
  rewrite get_config_store_eq, JsFacts.truthy_to_boolean. unfold to_boolean.
  by destruct (truthy v).
Qed.

Lemma set_keyboardLayout_cases c v :
  set_keyboardLayout v c
  = if unsupported_layout v
    then store_config "keyboardLayout" (VStr "qwerty")
           (error "Unsupported value for keyboardLayout - defaulting to 'qwerty'" c)
    else store_config "keyboardLayout" (or v (VStr "qwerty")) c.
Proof.
  unfold set_keyboardLayout, unsupported_layout, or.
  by destruct (truthy v).
Qed.

(** A supported or defaulted layout is one of the two names. *)
Lemma layout_stored v :
  unsupported_layout v = false →
  or v (VStr "qwerty") = VStr "qwerty" ∨ or v (VStr "qwerty") = VStr "azerty".
Proof.
  unfold unsupported_layout, or. destruct (truthy v); [|by left].
  simpl. intros H. apply andb_false_iff in H as [H|H];
    apply negb_false_iff, JsFacts.strict_eq_str in H; auto.
Qed.

(** *** [_reset] and the other fields *)

Lemma reset_store_config c k v :
  _reset (store_config k v c) = store_config k v (_reset c).
Proof.
  unfold _reset. simpl.
  by destruct (reset_handlers (_handlers c) (_states c) (_updates c)) as [[hs s] u].
Qed.

Lemma reset_with_pivotController c p :
  _reset (with_pivotController p c) = with_pivotController p (_reset c).
Proof.
  unfold _reset. simpl.
  by destruct (reset_handlers (_handlers c) (_states c) (_updates c)) as [[hs s] u].
Qed.

Lemma reset_error c msg : _reset (error msg c) = error msg (_reset c).
Proof.
  unfold _reset. simpl.
  by destruct (reset_handlers (_handlers c) (_states c) (_updates c)) as [[hs s] u].
Qed.

(** *** Writes to different properties *)

(** Two maps built by stores under literal names are equal when they agree
    name by name. *)
Ltac same_map :=
  apply map_eq; intros ?;
  rewrite ?lookup_insert; repeat case_decide; simplify_eq; done.

Lemma store_config_commute c k1 k2 v1 v2 :
  k1 ≠ k2 →
  store_config k1 v1 (store_config k2 v2 c)
  = store_config k2 v2 (store_config k1 v1 c).
Proof.
  intros H. unfold store_config. simpl. f_equal. by apply insert_insert_ne.
Qed.

(** X1.  Two writes that store under different options can be made in
    either order, and the instance ends up the same, log and pivot
    included, provided that neither of them is a write to [active] or
    [pointerEnabled] (these run the handlers' [reset], which is handed the
    options) and that at most one of them calls into the pivot controller
    ([pivotElement], [pivotPos], [firstPerson]).  The pair
    [dollyToPointer]/[dollyToPivot] is not such a pair: each stores under
    the other's option. *)
Theorem writes_commute c (w1 w2 : write) :
  resets w1 = false → resets w2 = false →
  reaches_pivot w1 && reaches_pivot w2 = false →
  (∀ k, k ∈ written w1 → k ∉ written w2) →
  perform (perform c w1) w2 = perform (perform c w2) w1.
Proof.
  intros Hr1 Hr2 Hp Hw.
  destruct w1 as [v1|v1|v1|v1|v1|v1|v1|v1|v1|v1|v1|v1|v1|v1|v1|v1],
           w2 as [v2|v2|v2|v2|v2|v2|v2|v2|v2|v2|v2|v2|v2|v2|v2|v2];
    simpl in Hr1, Hr2, Hp, Hw; try discriminate;
    try (exfalso; apply (Hw "dollyToPointer"); apply list_elem_of_here);
    try (exfalso; eapply Hw; apply list_elem_of_here);
    clear Hr1 Hr2 Hp Hw; simpl;
    rewrite ?set_dollyToPointer_cases, ?set_dollyToPivot_cases,
      ?set_firstPerson_cases, ?set_keyboardLayout_cases;
    unfold set_pivotElement, set_pivoting,
      set_pivotPos, set_planView, set_constrainVertical, set_doublePickFlyTo,
      set_panRightClick, set_rotationInertia, set_dollyRate, set_dollyInertia;
    repeat match goal with
      | |- context [if ?b then _ else _] => destruct b
      end;
    unfold store_config, with_pivotController, error; simpl;
    f_equal; try done; same_map.
Qed.

(** *** The same write twice *)

(** X2.  Except for [active] and [pointerEnabled] (which run the handlers'
    [reset]) and for an unsupported [keyboardLayout] (which logs each time),
    writing the same value to a property twice in a row is the same as
    writing it once. *)
Theorem write_twice c (w : write) :
  resets w = false → reported w = false →
  perform (perform c w) w = perform c w.
Proof.
  intros Hr Hl.
  destruct w as [v|v|v|v|v|v|v|v|v|v|v|v|v|v|v|v]; simpl in Hr, Hl; try done;
    simpl;
    rewrite ?set_dollyToPointer_cases, ?set_dollyToPivot_cases,
      ?set_firstPerson_cases, ?set_keyboardLayout_cases, ?Hl;
    unfold set_pivotElement, set_pivoting,
      set_pivotPos, set_planView, set_constrainVertical, set_doublePickFlyTo,
      set_panRightClick, set_rotationInertia, set_dollyRate, set_dollyInertia;
    repeat match goal with
      | |- context [if ?b then _ else _] => destruct b
      end;
    unfold store_config, with_pivotController, error; simpl;
    f_equal; try done; same_map.
Qed.

(** *** [_reset] twice *)

Lemma reset_handlers_own_state (hs : list (Handler L)) states updates :
  Forall resets_own_state hs →
  ∃ hs', reset_handlers hs states updates = (hs', states, updates)
         ∧ ∀ states' updates',
             reset_handlers hs' states' updates' = (hs', states', updates').
Proof.
  intros H. revert states updates.
  induction H as [|h hs Hh Hhs IH]; intros states updates.
  { by exists []. }
  destruct (IH states updates) as (hs' & E & E').
  unfold resets_own_state in Hh. simpl. unfold reset_handler.
  destruct (h_reset h) as [f|] eqn:Ef.
  - destruct (Hh (mkHandlerCtx (h_local h) states updates)) as (-> & -> & Hl).
    simpl. rewrite E.
    eexists. split; [reflexivity|].
    intros states' updates'. simpl. unfold reset_handler. simpl.
    destruct (Hh (mkHandlerCtx
                    (ctx_local (f (mkHandlerCtx (h_local h) states updates)))
                    states' updates')) as (-> & -> & _).
    rewrite (Hl (mkHandlerCtx _ states' updates') eq_refl).
    simpl. by rewrite E'.
  - rewrite E. eexists. split; [reflexivity|].
    intros states' updates'. simpl. unfold reset_handler. rewrite Ef.
    by rewrite E'.
Qed.

(** X3.  When every handler's [reset] keeps to the handler's own state and
    is itself repeatable, [_reset()] can be called redundantly: a second
    call in a row changes nothing, and neither does a second identical
    write to [active] or to [pointerEnabled]. *)
Theorem reset_twice c :
  Forall resets_own_state (_handlers c) →
  _reset (_reset c) = _reset c
  ∧ (∀ v, set_active v (set_active v c) = set_active v c)
  ∧ (∀ v, set_pointerEnabled v (set_pointerEnabled v c) = set_pointerEnabled v c).
Proof.
  intros H.
  assert (_reset (_reset c) = _reset c) as Hrr.
  { destruct (reset_handlers_own_state (_handlers c) (_states c) (_updates c) H)
      as (hs' & E & E').
    unfold _reset. rewrite E. simpl. rewrite E'.
    unfold store_update. simpl. f_equal. same_map. }
  split; [done|].
  split; intros v; unfold set_active, set_pointerEnabled;
    rewrite reset_store_config, Hrr;
    unfold store_config; simpl; f_equal; same_map.
Qed.

End Facts.

Import Scenario.

Lemma writes_commute_witness :
  perform (perform pivoting_drag (FirstPerson (VBool true)))
          (KeyboardLayout (VStr "dvorak"))
  = perform (perform pivoting_drag (KeyboardLayout (VStr "dvorak")))
            (FirstPerson (VBool true)).
Proof.
  apply writes_commute; [reflexivity | reflexivity | reflexivity |].
  intros k Hk Hk'. apply list_elem_of_singleton in Hk, Hk'.
  rewrite Hk in Hk'. discriminate Hk'.
Defined.

Lemma write_twice_witness :
  perform (perform pivoting_drag (DollyToPointer (VBool true)))
          (DollyToPointer (VBool true))
  = perform pivoting_drag (DollyToPointer (VBool true)).
Proof. apply write_twice; reflexivity. Defined.

Lemma reset_twice_witness :
  _reset (_reset (literals no_pivot handlers)) = _reset (literals no_pivot handlers).
Proof.
  assert (Forall resets_own_state (_handlers (literals no_pivot handlers))) as H.
  { simpl. unfold handlers.
    repeat (constructor; [first [exact I | intros ctx; simpl; repeat split]|]).
    constructor. }
  exact (proj1 (reset_twice (literals no_pivot handlers) H)).
Defined.

End CameraControlWritesFacts.

(** ** CameraControl: what the constructor leaves, and what no write changes *)

Module CameraControlStateFacts.
Import Js CameraControl CameraControlFacts CameraControlWrites
       CameraControlWritesFacts.

Section Facts.
Context {L : Type}.
Implicit Types (c : t L) (v : value) (k : string) (w : write).

Lemma falsy_not_azerty v : truthy v = false → strict_eq v (VStr "azerty") = false.
Proof. by destruct v as [| |b|x|s|r]; try done; destruct s. Qed.

(** What [set keyboardLayout] stores: "azerty" for the string "azerty",
    "qwerty" for everything else. *)
Lemma get_keyboardLayout_set c v :
  get_config "keyboardLayout" (set_keyboardLayout v c)
  = if strict_eq v (VStr "azerty") then VStr "azerty" else VStr "qwerty".
Proof.
  rewrite set_keyboardLayout_cases.
  destruct (unsupported_layout v) eqn:E; rewrite get_config_store_eq.
  - unfold unsupported_layout in E. apply andb_true_iff in E as [_ E].
    apply negb_true_iff in E. by rewrite E.
  - pose proof (layout_stored v E) as Hs. unfold or in *.
    destruct (truthy v) eqn:Ev.
    + destruct Hs as [-> | ->]; reflexivity.
    + by rewrite falsy_not_azerty.
Qed.

(** X4.  The options of a new instance, as a function of [cfg].  The
    boolean options are coerced; [active], [doublePickFlyTo] and
    [panRightClick] are on unless [cfg] says [false]; when [cfg] asks for
    both dolly targets, [dollyToPivot] wins; an inertia factor that [cfg]
    leaves out is 0.5 (not the 0 of the object literal) and one that it
    gives is taken as it is, whatever it is; [keyboardLayout] is "azerty"
    only for the string "azerty"; [dollyRate] is [cfg.dollyRate] when
    truthy and 10 otherwise; and [pointerEnabled] is [true] whatever
    [cfg.pointerEnabled] says. *)
Theorem constructed_options pivot (handlers : list (Handler L)) cfg :
  let c := construct pivot handlers cfg in
  (get_config "planView" c = VBool (truthy (prop cfg "planView"))
   ∧ get_config "firstPerson" c = VBool (truthy (prop cfg "firstPerson"))
   ∧ get_config "constrainVertical" c = VBool (truthy (prop cfg "constrainVertical"))
   ∧ get_config "pivoting" c = VBool (truthy (prop cfg "pivoting")))
  ∧ (get_config "active" c = VBool (strict_neq (prop cfg "active") (VBool false))
     ∧ get_config "doublePickFlyTo" c
       = VBool (strict_neq (prop cfg "doublePickFlyTo") (VBool false))
     ∧ get_config "panRightClick" c
       = VBool (strict_neq (prop cfg "panRightClick") (VBool false)))
  ∧ (get_config "dollyToPivot" c = VBool (truthy (prop cfg "dollyToPivot"))
     ∧ get_config "dollyToPointer" c
       = VBool (truthy (prop cfg "dollyToPointer")
                && negb (truthy (prop cfg "dollyToPivot"))))
  ∧ (get_config "rotationInertia" c
     = (if strict_eq (prop cfg "rotationInertia") VUndefined
        then VNum 0.5%float else prop cfg "rotationInertia")
     ∧ get_config "dollyInertia" c
       = (if strict_eq (prop cfg "dollyInertia") VUndefined
          then VNum 0.5%float else prop cfg "dollyInertia"))
  ∧ get_config "keyboardLayout" c
    = (if strict_eq (prop cfg "keyboardLayout") (VStr "azerty")
       then VStr "azerty" else VStr "qwerty")
  ∧ get_config "dollyRate" c
    = (if truthy (prop cfg "dollyRate") then prop cfg "dollyRate" else VNum 10%float)
  ∧ get_config "pointerEnabled" c = VBool true.
Proof.
  intros c. subst c. rewrite construct_writes. unfold perform_all. cbn [foldl].
  repeat apply conj.
  all: repeat rewrite perform_config_frame
         by (simpl; set_unfold; intuition discriminate).
  all: cbn [perform].
  all: rewrite ?get_dollyRate_set, ?get_keyboardLayout_set, ?get_firstPerson_set,
         ?(proj2 (get_dollyToPivot_set _ _)), ?(proj1 (get_dollyToPivot_set _ _)),
         ?(proj1 (get_dollyToPointer_set _ _)).
  all: try reflexivity.
  all: try (unfold set_planView, set_constrainVertical, set_pivoting, set_active,
             set_doublePickFlyTo, set_panRightClick, set_rotationInertia,
             set_dollyInertia, set_pointerEnabled;
            rewrite get_config_store_eq; reflexivity).
  by destruct (truthy (prop cfg "dollyToPivot")),
              (truthy (prop cfg "dollyToPointer")).
Qed.

(** *** The log *)

Lemma errors_after_write c w :
  errors (perform c w)
  = errors c
    ++ (if reported w
        then ["Unsupported value for keyboardLayout - defaulting to 'qwerty'"]
        else []).
Proof.
  destruct w; simpl;
    rewrite ?set_dollyToPointer_cases, ?set_dollyToPivot_cases,
      ?set_firstPerson_cases, ?set_keyboardLayout_cases;
    unfold set_active, set_pointerEnabled;
    repeat match goal with
      | |- context [if ?b then _ else _] => destruct b
      end;
    simpl; rewrite ?(proj2 (proj2 (reset_frame c))), ?app_nil_r; done.
Qed.

(** X5.  The log only grows, and only by the message of
    [set keyboardLayout]: after any writes it is the log from before
    followed by one copy of that message for each write of a truthy
    [keyboardLayout] other than "qwerty" and "azerty".  So a new instance
    has logged exactly once if [cfg.keyboardLayout] is such a value, and not
    at all otherwise. *)
Theorem log_after_writes :
  (∀ c (ws : list write),
     errors (perform_all c ws)
     = errors c
       ++ replicate (sum_list_with (λ w, if reported w then 1 else 0) ws)
            "Unsupported value for keyboardLayout - defaulting to 'qwerty'")
  ∧ (∀ pivot (handlers : list (Handler L)) cfg,
       errors (construct pivot handlers cfg)
       = if unsupported_layout (prop cfg "keyboardLayout")
         then ["Unsupported value for keyboardLayout - defaulting to 'qwerty'"]
         else []).
Proof.
  assert (∀ c (ws : list write),
     errors (perform_all c ws)
     = errors c
       ++ replicate (sum_list_with (λ w, if reported w then 1 else 0) ws)
            "Unsupported value for keyboardLayout - defaulting to 'qwerty'") as H.
  { intros c ws. revert c. induction ws as [|w ws IH]; intros c.
    { simpl. by rewrite app_nil_r. }
    unfold perform_all in *. cbn [foldl]. rewrite IH, errors_after_write.
    cbn [sum_list_with]. destruct (reported w); simpl.
    - by rewrite <- app_assoc.
    - by rewrite app_nil_r. }
  split; [exact H|].
  intros pivot handlers cfg. rewrite construct_writes, H.
  cbn [sum_list_with reported literals errors].
  by destruct (unsupported_layout (prop cfg "keyboardLayout")).
Qed.

(** *** What no write changes *)

(** X6.  The tap thresholds and the pan, orbit, rotate and zoom rates have
    no setter and no setter stores under their names: in every state the
    constructor and later writes can reach they hold what the object
    literal gave them. *)
Theorem fixed_options_constant pivot (handlers : list (Handler L)) cfg ws k :
  k ∈ fixed_options →
  get_config k (perform_all (construct pivot handlers cfg) ws)
  = prop initial_configs k.
Proof.
  intros Hk. rewrite construct_writes.
  assert (∀ w : write, k ∉ written w) as Hw.
  { intros w Hin. unfold fixed_options in Hk. set_unfold in Hk.
    destruct w; simpl in Hin; set_unfold in Hin;
      intuition (subst; discriminate). }
  rewrite !perform_all_config_frame by (intros w _; apply Hw).
  reflexivity.
Qed.

Lemma options_after_write c w :
  dom (_configs c) = dom initial_configs →
  dom (_configs (perform c w)) = dom initial_configs.
Proof.
  intros Hd.
  assert (∀ k, is_Some (initial_configs !! k) → k ∈ dom (_configs c)) as Hin.
  { intros k Hk. rewrite Hd. by apply elem_of_dom. }
  rewrite <- Hd. clear Hd.
  assert (∀ k v, k ∈ dom (_configs c) →
                 dom (<[k := v]> (_configs c)) = dom (_configs c)) as Hs.
  { intros k v Hk. apply dom_insert_lookup_L. by apply elem_of_dom. }
  assert (∀ k1 v1 k2 v2, k1 ∈ dom (_configs c) → k2 ∈ dom (_configs c) →
            dom (<[k2 := v2]> (<[k1 := v1]> (_configs c))) = dom (_configs c))
    as Hs2.
  { intros k1 v1 k2 v2 Hk1 Hk2. rewrite dom_insert_lookup_L.
    - by apply Hs.
    - apply elem_of_dom. by rewrite (Hs k1 v1 Hk1). }
  destruct w; simpl;
    rewrite ?set_dollyToPointer_cases, ?set_dollyToPivot_cases,
      ?set_firstPerson_cases, ?set_keyboardLayout_cases;
    unfold set_active, set_pointerEnabled, set_pivoting, set_planView,
      set_constrainVertical, set_doublePickFlyTo, set_panRightClick,
      set_rotationInertia, set_dollyRate, set_dollyInertia;
    repeat match goal with
      | |- context [if ?b then _ else _] => destruct b
      end;
    simpl; rewrite ?(proj1 (reset_frame c));
    first [ reflexivity
          | apply Hs; apply Hin; eexists; vm_compute; reflexivity
          | apply Hs2; apply Hin; eexists; vm_compute; reflexivity ].
Qed.

(** X7.  [_configs] keeps its shape: after the constructor and any writes
    it has exactly the options of the object literal, no more and no
    fewer. *)
Theorem options_shape pivot (handlers : list (Handler L)) cfg ws :
  dom (_configs (perform_all (construct pivot handlers cfg) ws))
  = dom initial_configs.
Proof.
  apply (constructed_invariant
           (λ c, dom (_configs c) = dom initial_configs));
    [done | intros c' w; apply options_after_write].
Qed.

Lemma layout_after_write c w :
  (get_config "keyboardLayout" c = VStr "qwerty"
   ∨ get_config "keyboardLayout" c = VStr "azerty") →
  get_config "keyboardLayout" (perform c w) = VStr "qwerty"
  ∨ get_config "keyboardLayout" (perform c w) = VStr "azerty".
Proof.
  intros H.
  assert ((∃ v, w = KeyboardLayout v) ∨ "keyboardLayout" ∉ written w) as [[v ->]|Hw].
  { destruct w; try (right; simpl; set_unfold; intuition discriminate).
    left; eauto. }
  - simpl. rewrite get_keyboardLayout_set.
    destruct (strict_eq v (VStr "azerty")); auto.
  - by rewrite perform_config_frame.
Qed.

(** X8.  [keyboardLayout] is always one of the strings "qwerty" and
    "azerty", whatever was passed to the constructor and written since. *)
Theorem keyboardLayout_is_a_layout pivot (handlers : list (Handler L)) cfg ws :
  get_config "keyboardLayout" (perform_all (construct pivot handlers cfg) ws)
    = VStr "qwerty"
  ∨ get_config "keyboardLayout" (perform_all (construct pivot handlers cfg) ws)
    = VStr "azerty".
Proof.
  apply (constructed_invariant
           (λ c, get_config "keyboardLayout" c = VStr "qwerty"
                 ∨ get_config "keyboardLayout" c = VStr "azerty"));
    [by left | intros c' w; apply layout_after_write].
Qed.

(** *** The dolly targets are not restored *)

Lemma dollyToPivot_stays_off c w :
  property w ≠ "dollyToPivot" →
  get_config "dollyToPivot" c = VBool false →
  get_config "dollyToPivot" (perform c w) = VBool false.
Proof.
  intros Hp H.
  assert ((∃ v, w = DollyToPointer v) ∨ "dollyToPivot" ∉ written w) as [[v ->]|Hw].
  { destruct w;
      first [ by (right; simpl; set_unfold; intuition discriminate)
            | by (left; eauto)
            | by simpl in Hp ]. }
  - simpl. rewrite (proj2 (get_dollyToPointer_set c v)). by destruct (truthy v).
  - by rewrite perform_config_frame.
Qed.

Lemma dollyToPointer_stays_off c w :
  property w ≠ "dollyToPointer" →
  get_config "dollyToPointer" c = VBool false →
  get_config "dollyToPointer" (perform c w) = VBool false.
Proof.
  intros Hp H.
  assert ((∃ v, w = DollyToPivot v) ∨ "dollyToPointer" ∉ written w) as [[v ->]|Hw].
  { destruct w;
      first [ by (right; simpl; set_unfold; intuition discriminate)
            | by (left; eauto)
            | by simpl in Hp ]. }
  - simpl. rewrite (proj2 (get_dollyToPivot_set c v)). by destruct (truthy v).
  - by rewrite perform_config_frame.
Qed.

(** X9.  Turning one dolly target on turns the other off for good: after a
    truthy write to [dollyToPointer], [dollyToPivot] is [false] and stays
    [false] through any later writes to other properties, a later
    [dollyToPointer = false] included; and the other way round. *)
Theorem dolly_target_not_restored c v (ws : list write) :
  truthy v = true →
  ((∀ w, w ∈ ws → property w ≠ "dollyToPivot") →
   get_config "dollyToPivot" (perform_all (set_dollyToPointer v c) ws) = VBool false)
  ∧ ((∀ w, w ∈ ws → property w ≠ "dollyToPointer") →
     get_config "dollyToPointer" (perform_all (set_dollyToPivot v c) ws) = VBool false).
Proof.
  intros Hv. split; intros Hws.
  - assert (get_config "dollyToPivot" (set_dollyToPointer v c) = VBool false) as H0.
    { rewrite (proj2 (get_dollyToPointer_set c v)). by rewrite Hv. }
    revert H0. generalize (set_dollyToPointer v c). clear c.
    induction ws as [|w ws IH]; intros c H0; [done|].
    unfold perform_all in *. cbn [foldl]. apply IH.
    + intros w' Hw'. apply Hws. by right.
    + apply dollyToPivot_stays_off; [apply Hws; by left | done].
  - assert (get_config "dollyToPointer" (set_dollyToPivot v c) = VBool false) as H0.
    { rewrite (proj2 (get_dollyToPivot_set c v)). by rewrite Hv. }
    revert H0. generalize (set_dollyToPivot v c). clear c.
    induction ws as [|w ws IH]; intros c H0; [done|].
    unfold perform_all in *. cbn [foldl]. apply IH.
    + intros w' Hw'. apply Hws. by right.
    + apply dollyToPointer_stays_off; [apply Hws; by left | done].
Qed.

End Facts.

Import Scenario.

Lemma fixed_options_constant_witness :
  get_config "tapInterval"
    (perform_all (construct no_pivot handlers ∅)
                 [DollyRate (VNum 3%float); Active (VBool false)])
  = prop initial_configs "tapInterval".
Proof. apply fixed_options_constant. apply list_elem_of_here. Defined.

Lemma dolly_target_not_restored_witness :
  get_config "dollyToPivot"
    (perform_all (set_dollyToPointer (VBool true) pivoting_drag)
                 [DollyToPointer (VBool false)])
  = VBool false.
Proof.
  apply (proj1 (dolly_target_not_restored pivoting_drag (VBool true)
                  [DollyToPointer (VBool false)] eq_refl)).
  intros w Hw. apply list_elem_of_singleton in Hw. rewrite Hw. discriminate.
Defined.

End CameraControlStateFacts.

(** ** SpotLight: vectors, attenuation, the shadow matrices and [init] *)

Module SpotLightShadowFacts.
Import Js SpotLight SpotLightShadow.

Section Facts.
Variable to_element : float → float.
Variable identityMat4 : list float.
Variable addVec3 : list float → list float → list float → list float.
Variable lookAtMat4v : list float → list float → list float → list float → list float.
Variable perspectiveMat4 : float → float → float → float → list float → list float.

#[local] Abbreviation set_pos := (set_pos to_element).
#[local] Abbreviation set_dir := (set_dir to_element).
#[local] Abbreviation set_color := (set_color to_element).
#[local] Abbreviation typed_array_set := (typed_array_set to_element).
#[local] Abbreviation getShadowViewMatrix :=
  (getShadowViewMatrix to_element identityMat4 addVec3 lookAtMat4v).
#[local] Abbreviation getShadowProjMatrix := (getShadowProjMatrix identityMat4 perspectiveMat4).
#[local] Abbreviation init := (init to_element).
#[local] Abbreviation after :=
  (after to_element identityMat4 addVec3 lookAtMat4v perspectiveMat4).
#[local] Abbreviation after_all :=
  (after_all to_element identityMat4 addVec3 lookAtMat4v perspectiveMat4).
#[local] Abbreviation fresh_view := (fresh_view to_element identityMat4 addVec3 lookAtMat4v).

Implicit Types (i : instance) (l : SpotLight.t) (v : value) (u : use).

(** *** Typed arrays *)

Lemma typed_array_set_throws (target source : list float) :
  typed_array_set target source = None ↔ length target < length source.
Proof.
  unfold SpotLightShadow.typed_array_set. case_decide; split; try done; lia.
Qed.

Lemma typed_array_set_stores (target source r : list float) :
  typed_array_set target source = Some r →
  length r = length target
  ∧ r = (to_element <$> source) ++ drop (length source) target.
Proof.
  unfold SpotLightShadow.typed_array_set. case_decide; [|done].
  intros [= <-]. split; [|done].
  rewrite length_app, length_fmap, length_drop. lia.
Qed.

Lemma array_store_length (k : nat) v (a : list value) :
  k < length a → length (array_store k v a) = length a.
Proof.
  intros H. unfold array_store. case_decide; [|lia]. by rewrite length_insert.
Qed.

Lemma set_castShadow_state v l :
  pos (_state (set_castShadow v l)) = pos (_state l)
  ∧ dir (_state (set_castShadow v l)) = dir (_state l)
  ∧ color (_state (set_castShadow v l)) = color (_state l)
  ∧ attenuation (_state (set_castShadow v l)) = attenuation (_state l)
  ∧ intensity (_state (set_castShadow v l)) = intensity (_state l)
  ∧ _shadowProjMatrixDirty (set_castShadow v l) = _shadowProjMatrixDirty l.
Proof.
  unfold set_castShadow. by destruct (strict_eq _ _).
Qed.

Lemma after_well_shaped i u : well_shaped i → well_shaped (after i u).
Proof.
  intros (Hp & Hd & Hc & Ha). unfold well_shaped, get_pos, get_dir, get_color in *.
  destruct u; simpl;
    unfold SpotLightShadow.set_pos, SpotLightShadow.set_dir,
      SpotLightShadow.set_color, SpotLightShadow.getShadowViewMatrix,
      SpotLightShadow.getShadowProjMatrix, set_constantAttenuation,
      set_linearAttenuation, set_quadraticAttenuation;
    try (destruct (typed_array_set _ _) as [r|] eqn:E; simpl; [|done];
         apply typed_array_set_stores in E as [E _]; simpl; by rewrite E);
    try (destruct (set_castShadow_state v (light i)) as (-> & -> & -> & -> & _);
         done);
    try (simpl; rewrite array_store_length by lia; done);
    try (by repeat match goal with
              | |- context [if ?b then _ else _] => destruct b
              end).
Qed.

Lemma after_all_invariant (P : instance → Prop) i (us : list use) :
  P i → (∀ i' u, P i' → P (after i' u)) → P (after_all i us).
Proof.
  intros H0 Hstep. revert i H0.
  induction us as [|u us IH]; intros i H0; [done|].
  unfold SpotLightShadow.after_all in *. simpl. apply IH, Hstep, H0.
Qed.

(** A successful [init] is its seven writes, made on the fields as
    created. *)
Lemma init_uses cfg i :
  init cfg = Some i →
  i = after_all (created (cfg_space cfg))
        [ SetPos (cfg_pos cfg); SetColor (cfg_color cfg);
          SetIntensity (cfg_intensity cfg);
          SetConstantAttenuation (cfg_constantAttenuation cfg);
          SetLinearAttenuation (cfg_linearAttenuation cfg);
          SetQuadraticAttenuation (cfg_quadraticAttenuation cfg);
          SetCastShadow (cfg_castShadow cfg) ].
Proof.
  unfold SpotLightShadow.init.
  destruct (set_pos (cfg_pos cfg) (created (cfg_space cfg))) as [i1|] eqn:E1;
    [|done].
  cbn [mbind option_bind].
  destruct (set_color (cfg_color cfg) i1) as [i2|] eqn:E2; [|done].
  cbn [mbind option_bind]. intros [= <-].
  unfold SpotLightShadow.after_all. cbn [foldl SpotLightShadow.after].
  rewrite E1. cbn [default from_option id]. by rewrite E2.
Qed.

Lemma init_well_shaped cfg i : init cfg = Some i → well_shaped i.
Proof.
  intros ->%init_uses. apply after_all_invariant; [|apply after_well_shaped].
  by repeat split.
Qed.

Lemma set_vector_throws i (xs : list float) :
  (set_pos (Elements xs) i = None ↔ length (get_pos i) < length xs)
  ∧ (set_dir (Elements xs) i = None ↔ length (get_dir i) < length xs)
  ∧ (set_color (Elements xs) i = None ↔ length (get_color i) < length xs).
Proof.
  unfold SpotLightShadow.set_pos, SpotLightShadow.set_dir,
    SpotLightShadow.set_color, get_pos, get_dir, get_color. simpl.
  repeat split; intros H.
  all: try (apply typed_array_set_throws in H; by rewrite H).
  all: match type of H with
       | context [typed_array_set ?t ?s] =>
           destruct (typed_array_set t s) eqn:E;
           [done | by apply typed_array_set_throws in E]
       end.
Qed.

(** What a successful write to a vector stores: the elements of the array
    (of the default, for a falsy value) over the first components, the
    others as they were; and the two other vectors are not touched. *)
Lemma set_vector_stores i (v : vector) i' :
  (set_pos v i = Some i' →
   get_pos i' = (to_element <$> or_vector v 1 1 1)
                ++ drop (length (or_vector v 1 1 1)) (get_pos i)
   ∧ get_dir i' = get_dir i ∧ get_color i' = get_color i)
  ∧ (set_dir v i = Some i' →
     get_dir i' = (to_element <$> or_vector v 1 1 1)
                  ++ drop (length (or_vector v 1 1 1)) (get_dir i)
     ∧ get_pos i' = get_pos i ∧ get_color i' = get_color i)
  ∧ (set_color v i = Some i' →
     get_color i' = (to_element <$> or_vector v 0.7 0.7 0.8)
                    ++ drop (length (or_vector v 0.7 0.7 0.8)) (get_color i)
     ∧ get_pos i' = get_pos i ∧ get_dir i' = get_dir i).
Proof.
  unfold SpotLightShadow.set_pos, SpotLightShadow.set_dir,
    SpotLightShadow.set_color, get_pos, get_dir, get_color.
  repeat split.
  all: match goal with
       | H : context [typed_array_set ?t ?s] |- _ =>
           destruct (typed_array_set t s) as [r|] eqn:E; [|done];
           apply typed_array_set_stores in E as [_ E];
           simpl in H; injection H as <-; simpl; by rewrite ?E
       end.
Qed.

(** X10.  The three vectors of a light always have three components.  A
    write of an array with more than three elements to [pos], [dir] or
    [color] throws (and nothing is written).  A write of a shorter one to
    any of the three replaces the first components of that vector by the
    elements of the array and keeps its other components, and the two
    other vectors, as they were.  A write of a falsy value never throws:
    it stores [1, 1, 1] in [pos] and in [dir], and [0.7, 0.7, 0.8] in
    [color]. *)
Theorem vectors_keep_three_components cfg i0 (us : list use) :
  init cfg = Some i0 →
  let i := after_all i0 us in
  (length (get_pos i) = 3 ∧ length (get_dir i) = 3 ∧ length (get_color i) = 3)
  ∧ (∀ xs, (set_pos (Elements xs) i = None ↔ 3 < length xs)
           ∧ (set_dir (Elements xs) i = None ↔ 3 < length xs)
           ∧ (set_color (Elements xs) i = None ↔ 3 < length xs))
  ∧ (∀ xs i', set_pos (Elements xs) i = Some i' →
              get_pos i' = (to_element <$> xs) ++ drop (length xs) (get_pos i)
              ∧ get_dir i' = get_dir i ∧ get_color i' = get_color i)
  ∧ (∀ xs i', set_dir (Elements xs) i = Some i' →
              get_dir i' = (to_element <$> xs) ++ drop (length xs) (get_dir i)
              ∧ get_pos i' = get_pos i ∧ get_color i' = get_color i)
  ∧ (∀ xs i', set_color (Elements xs) i = Some i' →
              get_color i' = (to_element <$> xs) ++ drop (length xs) (get_color i)
              ∧ get_pos i' = get_pos i ∧ get_dir i' = get_dir i)
  ∧ (∃ i', set_pos NoVector i = Some i'
           ∧ get_pos i' = to_element <$> [1%float; 1%float; 1%float]
           ∧ get_dir i' = get_dir i ∧ get_color i' = get_color i)
  ∧ (∃ i', set_dir NoVector i = Some i'
           ∧ get_dir i' = to_element <$> [1%float; 1%float; 1%float]
           ∧ get_pos i' = get_pos i ∧ get_color i' = get_color i)
  ∧ (∃ i', set_color NoVector i = Some i'
           ∧ get_color i' = to_element <$> [0.7%float; 0.7%float; 0.8%float]
           ∧ get_pos i' = get_pos i ∧ get_dir i' = get_dir i).
Proof.
  intros Hinit i.
  assert (well_shaped i) as (Hp & Hd & Hc & _).
  { apply after_all_invariant; [by eapply init_well_shaped|].
    apply after_well_shaped. }
  assert (is_Some (set_pos NoVector i) ∧ is_Some (set_dir NoVector i)
          ∧ is_Some (set_color NoVector i)) as ([ip Hip] & [id Hid] & [ic Hic]).
  { unfold get_pos, get_dir, get_color in *.
    unfold SpotLightShadow.set_pos, SpotLightShadow.set_dir,
      SpotLightShadow.set_color, SpotLightShadow.typed_array_set. simpl.
    rewrite Hp, Hd, Hc. simpl. repeat split; by eexists. }
  split; [done|]. split; [|split; [|split; [|split; [|split; [|split]]]]].
  - intros xs. destruct (set_vector_throws i xs) as (H1 & H2 & H3).
    rewrite Hp in H1. rewrite Hd in H2. rewrite Hc in H3. done.
  - intros xs i'. apply (set_vector_stores i (Elements xs) i').
  - intros xs i'. apply (set_vector_stores i (Elements xs) i').
  - intros xs i'. apply (set_vector_stores i (Elements xs) i').
  - exists ip. split; [done|].
    destruct (proj1 (set_vector_stores i NoVector ip) Hip) as (-> & ? & ?).
    simpl. rewrite drop_ge by lia. done.
  - exists id. split; [done|].
    destruct (proj1 (proj2 (set_vector_stores i NoVector id)) Hid) as (-> & ? & ?).
    simpl. rewrite drop_ge by lia. done.
  - exists ic. split; [done|].
    destruct (proj2 (proj2 (set_vector_stores i NoVector ic)) Hic) as (-> & ? & ?).
    simpl. rewrite drop_ge by lia. done.
Qed.

(** *** The shadow view matrix *)

(** The view of a use that does not reach the view matrix, the position or
    the direction. *)
Lemma set_castShadow_view v l :
  _shadowViewMatrixDirty l = false →
  _shadowViewMatrixDirty (set_castShadow v l) = false →
  _state (set_castShadow v l) = _state l.
Proof.
  unfold set_castShadow. destruct (strict_eq _ _); [done|]. simpl. done.
Qed.

Section Overwriting.

(** [addVec3] and [lookAtMat4v] overwrite their last argument: what it held
    before does not matter. *)
Hypothesis addVec3_overwrites :
  ∀ a b dest dest', addVec3 a b dest = addVec3 a b dest'.
Hypothesis lookAtMat4v_overwrites :
  ∀ eye target upward dest dest',
    lookAtMat4v eye target upward dest = lookAtMat4v eye target upward dest'.

Lemma after_view_coherent i u :
  (_shadowViewMatrixDirty (light i) = false →
   _shadowViewMatrix i = Some (fresh_view i)) →
  _shadowViewMatrixDirty (light (after i u)) = false →
  _shadowViewMatrix (after i u) = Some (fresh_view (after i u)).
Proof.
  intros Hi.
  destruct u; cbn [SpotLightShadow.after].
  - unfold SpotLightShadow.set_pos.
    destruct (typed_array_set _ _); simpl; [discriminate | exact Hi].
  - unfold SpotLightShadow.set_dir.
    destruct (typed_array_set _ _); simpl; [discriminate | exact Hi].
  - unfold SpotLightShadow.set_color.
    destruct (typed_array_set _ _); simpl; [|exact Hi].
    intros Hd. exact (Hi Hd).
  - simpl. intros Hd. exact (Hi Hd).
  - simpl. intros Hd. exact (Hi Hd).
  - simpl. intros Hd. exact (Hi Hd).
  - simpl. intros Hd. exact (Hi Hd).
  - simpl. intros Hd.
    assert (_shadowViewMatrixDirty (light i) = false) as Hd0.
    { revert Hd. unfold set_castShadow. by destruct (strict_eq _ _). }
    unfold SpotLightShadow.fresh_view. simpl.
    rewrite (set_castShadow_view v (light i) Hd0 Hd). exact (Hi Hd0).
  - unfold SpotLightShadow.getShadowViewMatrix.
    destruct (_shadowViewMatrixDirty (light i)) eqn:Hd; simpl; [|by rewrite Hd].
    intros _. unfold SpotLightShadow.fresh_view. simpl. f_equal.
    rewrite (addVec3_overwrites _ _ (addVec3 _ _ _) (look i)).
    apply lookAtMat4v_overwrites.
  - unfold SpotLightShadow.getShadowProjMatrix.
    destruct (_shadowProjMatrixDirty (light i)); simpl; exact Hi.
Qed.

(** X11.  The shadow view matrix is never stale: whatever has been set
    since [init], [getShadowViewMatrix()] returns the matrix that
    [lookAtMat4v] gives for the current position, the current position plus
    direction, and [up]. *)
Theorem shadow_view_matrix_is_current cfg i0 (us : list use) :
  init cfg = Some i0 →
  (getShadowViewMatrix (after_all i0 us)).1 = Some (fresh_view (after_all i0 us)).
Proof.
  intros Hinit.
  assert (_shadowViewMatrixDirty (light (after_all i0 us)) = false →
          _shadowViewMatrix (after_all i0 us) = Some (fresh_view (after_all i0 us)))
    as Hi.
  { apply (after_all_invariant
             (λ i, _shadowViewMatrixDirty (light i) = false →
                   _shadowViewMatrix i = Some (fresh_view i)));
      [|apply after_view_coherent].
    rewrite (init_uses cfg i0 Hinit).
    apply (after_all_invariant
             (λ i, _shadowViewMatrixDirty (light i) = false →
                   _shadowViewMatrix i = Some (fresh_view i)));
      [done | apply after_view_coherent]. }
  unfold SpotLightShadow.getShadowViewMatrix.
  destruct (_shadowViewMatrixDirty (light (after_all i0 us))); simpl; auto.
Qed.

End Overwriting.

(** *** The shadow projection matrix *)

Lemma after_projection i u :
  _shadowProjMatrixDirty (light i) = false →
  _shadowProjMatrixDirty (light (after i u)) = false
  ∧ _shadowProjMatrix (after i u) = _shadowProjMatrix i.
Proof.
  intros Hd.
  destruct u; cbn [SpotLightShadow.after];
    unfold SpotLightShadow.set_pos, SpotLightShadow.set_dir,
      SpotLightShadow.set_color, SpotLightShadow.getShadowViewMatrix,
      SpotLightShadow.getShadowProjMatrix;
    try (destruct (typed_array_set _ _); simpl; done);
    try (simpl; done).
  - simpl. by destruct (set_castShadow_state v (light i)) as (_&_&_&_&_&->).
  - by destruct (_shadowViewMatrixDirty (light i)).
  - by rewrite Hd.
Qed.

(** X12.  The shadow projection matrix is computed once: after a call of
    [getShadowProjMatrix()], every later call returns the matrix of that
    call, whatever has been set in between and whatever size the canvas has
    by then. *)
Theorem shadow_projection_matrix_is_fixed i (us : list use)
        (clientWidth clientHeight clientWidth' clientHeight' : float) :
  (getShadowProjMatrix clientWidth' clientHeight'
     (after_all (getShadowProjMatrix clientWidth clientHeight i).2 us)).1
  = (getShadowProjMatrix clientWidth clientHeight i).1.
Proof.
  set (i1 := (getShadowProjMatrix clientWidth clientHeight i).2).
  assert (_shadowProjMatrixDirty (light i1) = false
          ∧ _shadowProjMatrix i1 = (getShadowProjMatrix clientWidth clientHeight i).1)
    as [Hd Hm].
  { unfold i1, SpotLightShadow.getShadowProjMatrix.
    by destruct (_shadowProjMatrixDirty (light i)) eqn:E. }
  rewrite <- Hm.
  assert (_shadowProjMatrixDirty (light (after_all i1 us)) = false
          ∧ _shadowProjMatrix (after_all i1 us) = _shadowProjMatrix i1) as [Hd' Hm'].
  { apply (after_all_invariant
             (λ j, _shadowProjMatrixDirty (light j) = false
                   ∧ _shadowProjMatrix j = _shadowProjMatrix i1)); [done|].
    intros j u [Hj1 Hj2]. destruct (after_projection j u Hj1) as [? ?].
    split; congruence. }
  unfold SpotLightShadow.getShadowProjMatrix at 1. by rewrite Hd'.
Qed.

(** *** Attenuation *)

Lemma array_store_lookup (k j : nat) v (a : list value) :
  default VUndefined (array_store k v a !! j)
  = if decide (j = k) then v else default VUndefined (a !! j).
Proof.
  unfold array_store. case_decide as Hk.
  - case_decide as Hj.
    + subst. by rewrite list_lookup_insert_eq.
    + by rewrite list_lookup_insert_ne.
  - destruct (decide (j < length a)) as [Hlt|Hge].
    + rewrite lookup_app_l by done. case_decide; [lia | done].
    + rewrite lookup_app_r by lia.
      rewrite (lookup_ge_None_2 a j) by lia. simpl.
      destruct (decide (j - length a < k - length a)) as [Hin|Hout].
      * rewrite lookup_app_l by (by rewrite length_replicate).
        rewrite lookup_replicate_2 by done. case_decide; [lia | done].
      * rewrite lookup_app_r by (rewrite length_replicate; lia).
        rewrite length_replicate.
        case_decide as Hj.
        -- subst. by replace (k - length a - (k - length a)) with 0 by lia.
        -- destruct (j - length a - (k - length a)) as [|n] eqn:En; [lia | done].
Qed.

Lemma after_attenuation i u :
  length (attenuation (_state (light i))) = 3 →
  Forall (λ x, truthy x = true ∨ x = VNum 0%float) (attenuation (_state (light i))) →
  Forall (λ x, truthy x = true ∨ x = VNum 0%float)
         (attenuation (_state (light (after i u)))).
Proof.
  intros Hl Ha.
  assert (∀ k v, k < 3 →
            Forall (λ x, truthy x = true ∨ x = VNum 0%float)
                   (array_store k (or v (VNum 0%float))
                                (attenuation (_state (light i))))) as Hs.
  { intros k v Hk. unfold array_store. case_decide; [|lia].
    apply Forall_insert; [done|]. unfold or. destruct (truthy v) eqn:E; auto. }
  destruct u; cbn [SpotLightShadow.after];
    unfold SpotLightShadow.set_pos, SpotLightShadow.set_dir,
      SpotLightShadow.set_color, SpotLightShadow.getShadowViewMatrix,
      SpotLightShadow.getShadowProjMatrix, set_constantAttenuation,
      set_linearAttenuation, set_quadraticAttenuation;
    try (destruct (typed_array_set _ _); simpl; done);
    try (simpl; done);
    try (simpl; apply Hs; lia).
  - simpl. by destruct (set_castShadow_state v (light i)) as (_&_&_&->&_).
  - by destruct (_shadowViewMatrixDirty (light i)).
  - by destruct (_shadowProjMatrixDirty (light i)).
Qed.

(** X13.  Each attenuation setter writes its own element of the array and
    no other: reading factor [j] after writing factor [k] gives the written
    value (0 for a falsy one) when [j = k] and what was there otherwise.  So
    whatever is set after [init], the array keeps its three factors and
    none of them is [NaN], [null], [undefined] or any other falsy value but
    the number 0. *)
Theorem attenuation_factors :
  (∀ (k j : nat) v l,
     get_attenuation j (set_attenuation k v l)
     = if decide (j = k) then or v (VNum 0%float) else get_attenuation j l)
  ∧ (∀ cfg i0 (us : list use),
       init cfg = Some i0 →
       length (attenuation (_state (light (after_all i0 us)))) = 3
       ∧ Forall (λ x, truthy x = true ∨ x = VNum 0%float)
                (attenuation (_state (light (after_all i0 us))))).
Proof.
  split.
  - intros k j v l. unfold get_attenuation, set_attenuation. simpl.
    apply array_store_lookup.
  - intros cfg i0 us Hinit.
    assert (∀ i (vs : list use),
              well_shaped i ∧ Forall (λ x, truthy x = true ∨ x = VNum 0%float)
                                     (attenuation (_state (light i))) →
              well_shaped (after_all i vs)
              ∧ Forall (λ x, truthy x = true ∨ x = VNum 0%float)
                       (attenuation (_state (light (after_all i vs))))) as Hinv.
    { intros i vs Hi.
      apply (after_all_invariant
               (λ i, well_shaped i
                     ∧ Forall (λ x, truthy x = true ∨ x = VNum 0%float)
                              (attenuation (_state (light i))))); [done|].
      intros i' u [Hw Ha]. split; [by apply after_well_shaped|].
      apply after_attenuation; [apply Hw | done]. }
    assert (well_shaped (created (cfg_space cfg))
            ∧ Forall (λ x, truthy x = true ∨ x = VNum 0%float)
                     (attenuation (_state (light (created (cfg_space cfg))))))
      as Hbase.
    { split; [by repeat split|]. simpl. repeat constructor; by right. }
    pose proof (init_uses cfg i0 Hinit) as Hi0.
    pose proof (Hinv _ [ SetPos (cfg_pos cfg); SetColor (cfg_color cfg);
          SetIntensity (cfg_intensity cfg);
          SetConstantAttenuation (cfg_constantAttenuation cfg);
          SetLinearAttenuation (cfg_linearAttenuation cfg);
          SetQuadraticAttenuation (cfg_quadraticAttenuation cfg);
          SetCastShadow (cfg_castShadow cfg) ] Hbase) as H0.
    rewrite <- Hi0 in H0.
    destruct (Hinv i0 us H0) as [(_ & _ & _ & Hl) Ha].
    done.
Qed.

(** *** [init] *)

(** X14.  [init(cfg)] throws exactly when [cfg.pos] or [cfg.color] has more
    than three elements.  Otherwise the light points along [0, -1, 0]
    whatever [cfg.dir] says ([init] never reads it); [castShadow] is the
    truthiness of [cfg.castShadow]; the intensity is [cfg.intensity], or 1
    when that is [undefined]; the attenuation factors are those of [cfg],
    or 0 for the falsy ones; no shadow matrix has been computed and both
    are marked dirty; and [init] has requested six redraws, and a seventh
    followed by one "dirty" event when the light casts a shadow. *)
Theorem init_result cfg :
  (is_Some (init cfg)
   ↔ length (or_vector (cfg_pos cfg) 1 1 1) ≤ 3
     ∧ length (or_vector (cfg_color cfg) 0.7 0.7 0.8) ≤ 3)
  ∧ (∀ i, init cfg = Some i →
       get_dir i = [0%float; (-1)%float; 0%float]
       ∧ get_castShadow (light i) = VBool (truthy (cfg_castShadow cfg))
       ∧ get_intensity i
         = (if strict_neq (cfg_intensity cfg) VUndefined
            then cfg_intensity cfg else VNum 1%float)
       ∧ attenuation (_state (light i))
         = [ or (cfg_constantAttenuation cfg) (VNum 0%float);
             or (cfg_linearAttenuation cfg) (VNum 0%float);
             or (cfg_quadraticAttenuation cfg) (VNum 0%float) ]
       ∧ (_shadowViewMatrix i = None ∧ _shadowProjMatrix i = None
          ∧ _shadowViewMatrixDirty (light i) = true
          ∧ _shadowProjMatrixDirty (light i) = true)
       ∧ trace (light i)
         = replicate 6 GlRedraw
           ++ (if truthy (cfg_castShadow cfg)
               then [GlRedraw; Fire "dirty" (VBool true)] else [])).
Proof.
  unfold SpotLightShadow.init, SpotLightShadow.set_pos, SpotLightShadow.set_color.
  simpl.
  destruct (typed_array_set _ (or_vector (cfg_pos cfg) _ _ _)) as [p|] eqn:Ep.
  2: { apply typed_array_set_throws in Ep. simpl in Ep. simpl. split; [|done].
       split; [by intros [? ?] | lia]. }
  simpl.
  destruct (typed_array_set _ (or_vector (cfg_color cfg) _ _ _)) as [c|] eqn:Ec.
  2: { apply typed_array_set_throws in Ec. simpl in Ec. simpl. split; [|done].
       split; [by intros [? ?] | lia]. }
  simpl. split.
  - split; [intros _ | by eexists].
    assert (typed_array_set [1%float; 1%float; 1%float]
              (or_vector (cfg_pos cfg) 1 1 1) ≠ None) as Hp by (by rewrite Ep).
    assert (typed_array_set [0.7%float; 0.7%float; 0.8%float]
              (or_vector (cfg_color cfg) 0.7 0.7 0.8) ≠ None) as Hc by (by rewrite Ec).
    rewrite typed_array_set_throws in Hp, Hc. simpl in Hp, Hc. lia.
  - intros i [= <-]. unfold get_dir, get_castShadow, get_intensity.
    unfold set_castShadow, to_boolean; simpl.
    destruct (truthy (cfg_castShadow cfg)); simpl; done.
Qed.

End Facts.

Import ScenarioShadow.

Lemma vectors_keep_three_components_witness :
  (length (get_pos (after_all as_double [] sum recorded (λ _ _ _ _ d, d)
                      shadow_light [SetDir (Elements [5%float])])) = 3
   ∧ length (get_dir (after_all as_double [] sum recorded (λ _ _ _ _ d, d)
                        shadow_light [SetDir (Elements [5%float])])) = 3
   ∧ length (get_color (after_all as_double [] sum recorded (λ _ _ _ _ d, d)
                          shadow_light [SetDir (Elements [5%float])])) = 3)
  ∧ (set_dir as_double (Elements [1%float; 2%float; 3%float; 4%float])
             (after_all as_double [] sum recorded (λ _ _ _ _ d, d)
                        shadow_light [SetDir (Elements [5%float])]) = None
     ↔ 3 < 4).
Proof.
  destruct (vectors_keep_three_components as_double [] sum recorded
              (λ _ _ _ _ d, d) shadow_config shadow_light
              [SetDir (Elements [5%float])] eq_refl) as (Hl & Ht & _).
  split; [exact Hl|].
  exact (proj1 (proj2 (Ht [1%float; 2%float; 3%float; 4%float]))).
Defined.

(** On that light, whose direction is [5, -1, 0] after the write of [[5]]:
    [dir = [7, 8]] leaves [7, 8, 0]. *)
Lemma shorter_dir_keeps_the_rest :
  get_dir (after as_double [] sum recorded (λ _ _ _ _ d, d)
             (after as_double [] sum recorded (λ _ _ _ _ d, d) shadow_light
                (SetDir (Elements [5%float])))
             (SetDir (Elements [7%float; 8%float])))
  = [7%float; 8%float; 0%float].
Proof. reflexivity. Qed.

Lemma shadow_view_matrix_is_current_witness :
  (getShadowViewMatrix as_double [] sum recorded
     (after_all as_double [] sum recorded (λ _ _ _ _ d, d) shadow_light
        [GetShadowViewMatrix; SetPos (Elements [5%float; 5%float; 5%float]);
         SetColor NoVector])).1
  = Some (fresh_view as_double [] sum recorded
            (after_all as_double [] sum recorded (λ _ _ _ _ d, d) shadow_light
               [GetShadowViewMatrix; SetPos (Elements [5%float; 5%float; 5%float]);
                SetColor NoVector])).
Proof.
  apply (shadow_view_matrix_is_current as_double [] sum recorded (λ _ _ _ _ d, d)
           (λ _ _ _ _, eq_refl) (λ _ _ _ _ _, eq_refl) shadow_config).
  reflexivity.
Defined.

Lemma attenuation_factors_witness :
  length (attenuation (_state (light
            (after_all as_double [] sum recorded (λ _ _ _ _ d, d) shadow_light
               [SetLinearAttenuation (VNum nan)])))) = 3
  ∧ Forall (λ x, truthy x = true ∨ x = VNum 0%float)
      (attenuation (_state (light
         (after_all as_double [] sum recorded (λ _ _ _ _ d, d) shadow_light
            [SetLinearAttenuation (VNum nan)])))).
Proof.
  apply (proj2 (attenuation_factors as_double [] sum recorded (λ _ _ _ _ d, d))
           shadow_config).
  reflexivity.
Defined.

Lemma init_result_witness :
  get_dir shadow_light = [0%float; (-1)%float; 0%float]
  ∧ trace (light shadow_light)
    = replicate 6 GlRedraw ++ [GlRedraw; Fire "dirty" (VBool true)].
Proof.
  destruct (proj2 (init_result as_double shadow_config) shadow_light eq_refl)
    as (Hd & _ & _ & _ & _ & Ht).
  split; [exact Hd | exact Ht].
Defined.

End SpotLightShadowFacts.
